(** * The network interface: ARP resolution between IP and Ethernet

    A shallow embedding of [src/network_interface.hh] and
    [src/network_interface.cc].  The class [NetworkInterface] becomes a
    record of its data members, and every member function becomes a function
    from the state before the call to the state after it (together with the
    returned value, when there is one).

    The two [std::unordered_map] members are finite maps ([gmap]) keyed by
    the raw IPv4 address, the [std::list] of waiting datagrams is a list in
    insertion order and the [std::queue] of outgoing frames is a list whose
    head is the front of the queue.  Unsigned machine integers ([uint32_t]
    addresses, [uint16_t] opcodes and frame types, [size_t] timers) are
    natural numbers in [N]; the only arithmetic of the source, [ttl -= ms],
    runs under the guard [ttl > ms] and therefore never wraps around. *)

From stdpp Require Import gmap list fin_maps.
From Stdlib Require Import NArith Lia.

(** ** Messages and frames

    [arp_message.hh] and [ethernet_frame.hh] are included by the header but
    are not part of the sources; the records below list the fields that
    [network_interface.cc] reads and writes. *)

Record ARPMessage {EthAddr : Type} := mkARPMessage {
  opcode : N;
  sender_ethernet_address : EthAddr;
  sender_ip_address : N;
  target_ethernet_address : EthAddr;
  target_ip_address : N
}.
Arguments ARPMessage : clear implicits.
Arguments mkARPMessage {EthAddr}.

Record EthernetHeader {EthAddr : Type} := mkEthernetHeader {
  dst : EthAddr;
  src : EthAddr;
  type : N
}.
Arguments EthernetHeader : clear implicits.
Arguments mkEthernetHeader {EthAddr}.

Record EthernetFrame {EthAddr Bytes : Type} := mkEthernetFrame {
  header : EthernetHeader EthAddr;
  payload : Bytes
}.
Arguments EthernetFrame : clear implicits.
Arguments mkEthernetFrame {EthAddr Bytes}.

(** ** What the interface takes from the rest of the stack

    The address types, the codecs ([serialize], [Parser] and the [parse]
    members) and the protocol constants are declared in headers outside the
    sources.  They are parameters of the development: a parser that reports
    an error ([parser.has_error()]) is a [parse_*] function that returns
    [None].  The two frame types are the labels of one [switch] and hence
    distinct. *)

Class Stack := {
  Address : Type;
  ipv4_numeric : Address → N;
  EthernetAddress : Type;
  EthernetAddress_eq_dec :: EqDecision EthernetAddress;
  ETHERNET_BROADCAST : EthernetAddress;
  EthernetAddress_empty : EthernetAddress;
  InternetDatagram : Type;
  Buffers : Type;
  serialize_dgram : InternetDatagram → Buffers;
  parse_dgram : Buffers → option InternetDatagram;
  serialize_arp : ARPMessage EthernetAddress → Buffers;
  parse_arp : Buffers → option (ARPMessage EthernetAddress);
  TYPE_IPv4 : N;
  TYPE_ARP : N;
  TYPE_IPv4_ARP : TYPE_IPv4 ≠ TYPE_ARP;
  OPCODE_REQUEST : N;
  OPCODE_REPLY : N
}.

Section Interface.
Context {stack : Stack}.

Local Open Scope N_scope.

Local Abbreviation Frame := (EthernetFrame EthernetAddress Buffers).

(** ** The state of a [NetworkInterface] *)

Record ARP_Entry := mkARP_Entry {
  eth_addr : EthernetAddress;
  ttl : N
}.

Record NetworkInterface := mkNetworkInterface {
  ethernet_address_ : EthernetAddress;
  ip_address_ : Address;
  arp_table_ : gmap N ARP_Entry;
  waiting_arp_response_ip_addr_ : gmap N N;
  waiting_arp_internet_datagrams_ : list (Address * InternetDatagram);
  _frames_out : list Frame
}.

Definition arp_entry_default_ttl_ : N := 30000.
Definition arp_response_default_ttl_ : N := 5000.

(** The constructor: every container starts empty. *)
Definition NetworkInterface_new
    (ethernet_address : EthernetAddress) (ip_address : Address) : NetworkInterface :=
  {| ethernet_address_ := ethernet_address;
     ip_address_ := ip_address;
     arp_table_ := ∅;
     waiting_arp_response_ip_addr_ := ∅;
     waiting_arp_internet_datagrams_ := [];
     _frames_out := [] |}.

(** Assignments to one data member. *)
Definition with_arp_table (t : gmap N ARP_Entry) (ni : NetworkInterface) :=
  {| ethernet_address_ := ethernet_address_ ni;
     ip_address_ := ip_address_ ni;
     arp_table_ := t;
     waiting_arp_response_ip_addr_ := waiting_arp_response_ip_addr_ ni;
     waiting_arp_internet_datagrams_ := waiting_arp_internet_datagrams_ ni;
     _frames_out := _frames_out ni |}.

Definition with_waiting_ip (w : gmap N N) (ni : NetworkInterface) :=
  {| ethernet_address_ := ethernet_address_ ni;
     ip_address_ := ip_address_ ni;
     arp_table_ := arp_table_ ni;
     waiting_arp_response_ip_addr_ := w;
     waiting_arp_internet_datagrams_ := waiting_arp_internet_datagrams_ ni;
     _frames_out := _frames_out ni |}.

Definition with_waiting_dgrams
    (q : list (Address * InternetDatagram)) (ni : NetworkInterface) :=
  {| ethernet_address_ := ethernet_address_ ni;
     ip_address_ := ip_address_ ni;
     arp_table_ := arp_table_ ni;
     waiting_arp_response_ip_addr_ := waiting_arp_response_ip_addr_ ni;
     waiting_arp_internet_datagrams_ := q;
     _frames_out := _frames_out ni |}.

(** [_frames_out.push(f)] *)
Definition push_frame (f : Frame) (ni : NetworkInterface) :=
  {| ethernet_address_ := ethernet_address_ ni;
     ip_address_ := ip_address_ ni;
     arp_table_ := arp_table_ ni;
     waiting_arp_response_ip_addr_ := waiting_arp_response_ip_addr_ ni;
     waiting_arp_internet_datagrams_ := waiting_arp_internet_datagrams_ ni;
     _frames_out := _frames_out ni ++ [f] |}.

(** ** The helpers that build messages and frames *)

Definition construct_arp_message (ni : NetworkInterface)
    (op : N) (target_eth_addr : EthernetAddress) (target_ip_addr : N)
    : ARPMessage EthernetAddress :=
  {| opcode := op;
     sender_ethernet_address := ethernet_address_ ni;
     sender_ip_address := ipv4_numeric (ip_address_ ni);
     target_ethernet_address := target_eth_addr;
     target_ip_address := target_ip_addr |}.

Definition construct_ethernet_frame (ni : NetworkInterface)
    (dst_addr : EthernetAddress) (ty : N) (data : Buffers) : Frame :=
  {| header := {| dst := dst_addr; src := ethernet_address_ ni; type := ty |};
     payload := data |}.

(** The frame that carries an ARP request for [next_hop_ip], and the frame
    that carries [dgram] to the Ethernet address [to]. *)
Definition arp_request_frame (ni : NetworkInterface) (next_hop_ip : N) : Frame :=
  construct_ethernet_frame ni ETHERNET_BROADCAST TYPE_ARP
    (serialize_arp
       (construct_arp_message ni OPCODE_REQUEST EthernetAddress_empty next_hop_ip)).

Definition ipv4_frame (ni : NetworkInterface)
    (to : EthernetAddress) (dgram : InternetDatagram) : Frame :=
  construct_ethernet_frame ni to TYPE_IPv4 (serialize_dgram dgram).

(** ** [send_datagram] *)

Definition send_datagram
    (dgram : InternetDatagram) (next_hop : Address) (ni : NetworkInterface)
    : NetworkInterface :=
  let next_hop_ip := ipv4_numeric next_hop in
  match arp_table_ ni !! next_hop_ip with
  | None =>
      let ni1 :=
        match waiting_arp_response_ip_addr_ ni !! next_hop_ip with
        | None =>
            with_waiting_ip
              (<[next_hop_ip := arp_response_default_ttl_]>
                 (waiting_arp_response_ip_addr_ ni))
              (push_frame (arp_request_frame ni next_hop_ip) ni)
        | Some _ => ni
        end in
      with_waiting_dgrams
        (waiting_arp_internet_datagrams_ ni1 ++ [(next_hop, dgram)]) ni1
  | Some entry => push_frame (ipv4_frame ni (eth_addr entry) dgram) ni
  end.

(** ** [recv_frame] and its two handlers *)

Definition handle_IPv4_frame (frame : Frame) : option InternetDatagram :=
  parse_dgram (payload frame).

(** The loop of [handle_arp_frame] over the waiting datagrams.  The
    iterator is the position [i] in the list of the current state; the loop
    ends when the position is past the end of that list.  [send_datagram]
    runs on the whole state and may therefore append to the very list the
    loop walks over, so the loop is not structurally recursive: it takes
    fuel, and [None] means that the fuel ran out before the loop ended. *)
Fixpoint resend_waiting (fuel : nat) (src_ip_addr : N) (i : nat)
    (ni : NetworkInterface) : option NetworkInterface :=
  match fuel with
  | O => None
  | S fuel' =>
      match waiting_arp_internet_datagrams_ ni !! i with
      | None => Some ni
      | Some (next_hop, dgram) =>
          if decide (ipv4_numeric next_hop = src_ip_addr) then
            let ni1 := send_datagram dgram next_hop ni in
            resend_waiting fuel' src_ip_addr i
              (with_waiting_dgrams
                 (delete i (waiting_arp_internet_datagrams_ ni1)) ni1)
          else resend_waiting fuel' src_ip_addr (S i) ni
      end
  end.

Definition is_valid_arp_request
    (ni : NetworkInterface) (arp_msg : ARPMessage EthernetAddress) : bool :=
  bool_decide (opcode arp_msg = OPCODE_REQUEST)
  && bool_decide (target_ip_address arp_msg = ipv4_numeric (ip_address_ ni)).

Definition is_valid_arp_reply
    (ni : NetworkInterface) (arp_msg : ARPMessage EthernetAddress) : bool :=
  bool_decide (opcode arp_msg = OPCODE_REPLY)
  && bool_decide (target_ethernet_address arp_msg = ethernet_address_ ni).

Definition arp_reply_frame
    (ni : NetworkInterface) (arp_msg : ARPMessage EthernetAddress) : Frame :=
  construct_ethernet_frame ni (sender_ethernet_address arp_msg) TYPE_ARP
    (serialize_arp
       (construct_arp_message ni OPCODE_REPLY
          (sender_ethernet_address arp_msg) (sender_ip_address arp_msg))).

Definition handle_arp_frame (fuel : nat) (frame : Frame) (ni : NetworkInterface)
    : option (NetworkInterface * option InternetDatagram) :=
  match parse_arp (payload frame) with
  | Some arp_msg =>
      let src_ip_addr := sender_ip_address arp_msg in
      let src_eth_addr := sender_ethernet_address arp_msg in
      let ni1 :=
        if is_valid_arp_request ni arp_msg
        then push_frame (arp_reply_frame ni arp_msg) ni
        else ni in
      if is_valid_arp_request ni arp_msg || is_valid_arp_reply ni arp_msg then
        let ni2 :=
          with_arp_table
            (<[src_ip_addr :=
                 {| eth_addr := src_eth_addr; ttl := arp_entry_default_ttl_ |}]>
               (arp_table_ ni1)) ni1 in
        match resend_waiting fuel src_ip_addr 0 ni2 with
        | Some ni3 =>
            Some (with_waiting_ip
                    (delete src_ip_addr (waiting_arp_response_ip_addr_ ni3)) ni3,
                  None)
        | None => None
        end
      else Some (ni1, None)
  | None => Some (ni, None)
  end.

Definition recv_frame (fuel : nat) (frame : Frame) (ni : NetworkInterface)
    : option (NetworkInterface * option InternetDatagram) :=
  if bool_decide (dst (header frame) ≠ ethernet_address_ ni)
     && bool_decide (dst (header frame) ≠ ETHERNET_BROADCAST)
  then Some (ni, None)
  else if decide (type (header frame) = TYPE_IPv4)
  then Some (ni, handle_IPv4_frame frame)
  else if decide (type (header frame) = TYPE_ARP)
  then handle_arp_frame fuel frame ni
  else Some (ni, None).

(** ** [tick]

    Each loop of [tick] visits every entry of a map once, in the order of
    the container, and either erases the entry or lowers its timer.  The
    entries are visited here in the order of [map_to_list]; the lemmas
    [tick_arp_table_lookup], [tick_waiting_lookup] and [tick_waiting_dgrams]
    below show that the outcome does not depend on it. *)

Definition tick_arp_step (ms : N)
    (tbl : gmap N ARP_Entry) (it : N * ARP_Entry) : gmap N ARP_Entry :=
  if decide (ttl it.2 ≤ ms) then delete it.1 tbl
  else <[it.1 := {| eth_addr := eth_addr it.2; ttl := ttl it.2 - ms |}]> tbl.

Definition tick_waiting_step (ms : N)
    (acc : gmap N N * list (Address * InternetDatagram)) (it : N * N)
    : gmap N N * list (Address * InternetDatagram) :=
  if decide (it.2 ≤ ms) then
    let expired_ip := it.1 in
    (delete expired_ip acc.1,
     filter (λ pair, ¬ ipv4_numeric pair.1 = expired_ip) acc.2)
  else (<[it.1 := it.2 - ms]> acc.1, acc.2).

Definition tick (ms_since_last_tick : N) (ni : NetworkInterface) : NetworkInterface :=
  let tbl :=
    foldl (tick_arp_step ms_since_last_tick)
      (arp_table_ ni) (map_to_list (arp_table_ ni)) in
  let wq :=
    foldl (tick_waiting_step ms_since_last_tick)
      (waiting_arp_response_ip_addr_ ni, waiting_arp_internet_datagrams_ ni)
      (map_to_list (waiting_arp_response_ip_addr_ ni)) in
  with_waiting_dgrams wq.2 (with_waiting_ip wq.1 (with_arp_table tbl ni)).

(** ** [maybe_send] *)

Definition maybe_send (ni : NetworkInterface) : NetworkInterface * option Frame :=
  match _frames_out ni with
  | frame :: rest =>
      ({| ethernet_address_ := ethernet_address_ ni;
          ip_address_ := ip_address_ ni;
          arp_table_ := arp_table_ ni;
          waiting_arp_response_ip_addr_ := waiting_arp_response_ip_addr_ ni;
          waiting_arp_internet_datagrams_ := waiting_arp_internet_datagrams_ ni;
          _frames_out := rest |}, Some frame)
  | [] => (ni, None)
  end.

(** The calls of [send_datagram] that the loop of [handle_arp_frame] makes,
    in order: the next hop passed to each call and the state in which the
    call starts.  The recursion is that of [resend_waiting]. *)
Fixpoint resend_calls (fuel : nat) (src_ip_addr : N) (i : nat)
    (ni : NetworkInterface) : list (Address * NetworkInterface) :=
  match fuel with
  | O => []
  | S fuel' =>
      match waiting_arp_internet_datagrams_ ni !! i with
      | None => []
      | Some (next_hop, dgram) =>
          if decide (ipv4_numeric next_hop = src_ip_addr) then
            let ni1 := send_datagram dgram next_hop ni in
            (next_hop, ni) ::
            resend_calls fuel' src_ip_addr i
              (with_waiting_dgrams
                 (delete i (waiting_arp_internet_datagrams_ ni1)) ni1)
          else resend_calls fuel' src_ip_addr (S i) ni
      end
  end.

(** [send_datagram] takes its second branch, the one that finds the next
    hop in the ARP table. *)
Definition takes_cache_hit_branch (call : Address * NetworkInterface) : Prop :=
  is_Some (arp_table_ call.2 !! ipv4_numeric call.1).

(** The loop of [handle_arp_frame] once more, returning next to its result
    the calls of [send_datagram] it makes.  [resend_waiting_traced_eq] shows
    that its result is that of [resend_waiting] and its calls are
    [resend_calls]. *)
Fixpoint resend_waiting_traced (fuel : nat) (src_ip_addr : N) (i : nat)
    (ni : NetworkInterface)
    : option NetworkInterface * list (Address * NetworkInterface) :=
  match fuel with
  | O => (None, [])
  | S fuel' =>
      match waiting_arp_internet_datagrams_ ni !! i with
      | None => (Some ni, [])
      | Some (next_hop, dgram) =>
          if decide (ipv4_numeric next_hop = src_ip_addr) then
            let ni1 := send_datagram dgram next_hop ni in
            let rest :=
              resend_waiting_traced fuel' src_ip_addr i
                (with_waiting_dgrams
                   (delete i (waiting_arp_internet_datagrams_ ni1)) ni1) in
            (rest.1, (next_hop, ni) :: rest.2)
          else resend_waiting_traced fuel' src_ip_addr (S i) ni
      end
  end.

(** ** Runs of the interface

    One step is one call of a public member function.  [recv_frame] steps
    to the state it returns, for whatever fuel lets its loop finish. *)
Inductive step : NetworkInterface → NetworkInterface → Prop :=
| step_send_datagram dgram next_hop ni :
    step ni (send_datagram dgram next_hop ni)
| step_recv_frame fuel frame ni ni' res :
    recv_frame fuel frame ni = Some (ni', res) →
    step ni ni'
| step_tick ms ni :
    step ni (tick ms ni)
| step_maybe_send ni :
    step ni (maybe_send ni).1.

Definition reachable (ni : NetworkInterface) : Prop :=
  ∃ ethernet_address ip_address,
    rtc step (NetworkInterface_new ethernet_address ip_address) ni.

(** The blocked datagrams of [ni] whose next hop has the address [ip], and
    the others. *)
Definition waiting_for (ip : N) (ni : NetworkInterface)
    : list (Address * InternetDatagram) :=
  filter (λ pair, ipv4_numeric pair.1 = ip) (waiting_arp_internet_datagrams_ ni).

Definition waiting_not_for (ip : N) (ni : NetworkInterface)
    : list (Address * InternetDatagram) :=
  filter (λ pair, ¬ ipv4_numeric pair.1 = ip) (waiting_arp_internet_datagrams_ ni).

(** What one call of [tick] makes of a timer: [None] when it expires. *)
Definition aged (ms t : N) : option N :=
  if decide (t ≤ ms) then None else Some (t - ms).

Definition aged_entry (ms : N) (entry : ARP_Entry) : option ARP_Entry :=
  if decide (ttl entry ≤ ms) then None
  else Some {| eth_addr := eth_addr entry; ttl := ttl entry - ms |}.

(** No request for [ip] expires in [w] when [ms] milliseconds pass. *)
Definition not_expired (ms : N) (w : gmap N N) (ip : N) : Prop :=
  match w !! ip with
  | Some t => ms < t
  | None => True
  end.

#[global] Instance not_expired_dec ms w ip : Decision (not_expired ms w ip).
Proof. unfold not_expired. destruct (w !! ip); apply _. Defined.

(** The state the loop ends in when it starts at position [i] and the ARP
    table maps [src_ip_addr] to [entry]. *)
Definition resent (src_ip_addr : N) (entry : ARP_Entry) (i : nat)
    (ni : NetworkInterface) : NetworkInterface :=
  let q := waiting_arp_internet_datagrams_ ni in
  {| ethernet_address_ := ethernet_address_ ni;
     ip_address_ := ip_address_ ni;
     arp_table_ := arp_table_ ni;
     waiting_arp_response_ip_addr_ := waiting_arp_response_ip_addr_ ni;
     waiting_arp_internet_datagrams_ :=
       take i q ++ filter (λ pair, ¬ ipv4_numeric pair.1 = src_ip_addr) (drop i q);
     _frames_out :=
       _frames_out ni
       ++ ((λ pair, ipv4_frame ni (eth_addr entry) pair.2)
           <$> filter (λ pair, ipv4_numeric pair.1 = src_ip_addr) (drop i q)) |}.

(** A frame passes the address filter of [recv_frame]. *)
Definition addressed_to (ni : NetworkInterface) (frame : Frame) : Prop :=
  dst (header frame) = ethernet_address_ ni
  ∨ dst (header frame) = ETHERNET_BROADCAST.

(** The frames [handle_arp_frame] pushes for a request or reply it accepts:
    the ARP reply when the message is a request, and then one frame for
    each datagram that waited for the sender, in the order of the list. *)
Definition frames_on_learning
    (ni : NetworkInterface) (arp_msg : ARPMessage EthernetAddress) : list Frame :=
  (if is_valid_arp_request ni arp_msg then [arp_reply_frame ni arp_msg] else [])
  ++ ((λ pair, ipv4_frame ni (sender_ethernet_address arp_msg) pair.2)
      <$> waiting_for (sender_ip_address arp_msg) ni).

(** The state after [handle_arp_frame] accepted [arp_msg]. *)
Definition learned
    (ni : NetworkInterface) (arp_msg : ARPMessage EthernetAddress) : NetworkInterface :=
  {| ethernet_address_ := ethernet_address_ ni;
     ip_address_ := ip_address_ ni;
     arp_table_ :=
       <[sender_ip_address arp_msg :=
           {| eth_addr := sender_ethernet_address arp_msg;
              ttl := arp_entry_default_ttl_ |}]> (arp_table_ ni);
     waiting_arp_response_ip_addr_ :=
       delete (sender_ip_address arp_msg) (waiting_arp_response_ip_addr_ ni);
     waiting_arp_internet_datagrams_ :=
       waiting_not_for (sender_ip_address arp_msg) ni;
     _frames_out := _frames_out ni ++ frames_on_learning ni arp_msg |}.

(** The two invariants of the reachable states: an address with an entry
    in the ARP table has no pending request, and every waiting datagram
    has a pending request for its next hop. *)
Definition table_excludes_pending (ni : NetworkInterface) : Prop :=
  ∀ ip, is_Some (arp_table_ ni !! ip) → waiting_arp_response_ip_addr_ ni !! ip = None.

Definition waiting_has_pending (ni : NetworkInterface) : Prop :=
  ∀ pair, pair ∈ waiting_arp_internet_datagrams_ ni →
    is_Some (waiting_arp_response_ip_addr_ ni !! ipv4_numeric pair.1).

(** Calls of [send_datagram] with time passing in between. *)
Inductive call :=
| call_send_datagram (dgram : InternetDatagram) (next_hop : Address)
| call_tick (ms_since_last_tick : N).

Definition run_call (ni : NetworkInterface) (c : call) : NetworkInterface :=
  match c with
  | call_send_datagram dgram next_hop => send_datagram dgram next_hop ni
  | call_tick ms => tick ms ni
  end.

Definition run (calls : list call) (ni : NetworkInterface) : NetworkInterface :=
  foldl run_call ni calls.

(** The time that passes during [calls]. *)
Fixpoint elapsed (calls : list call) : N :=
  match calls with
  | [] => 0
  | call_send_datagram _ _ :: rest => elapsed rest
  | call_tick ms :: rest => ms + elapsed rest
  end.

(** A call that, when it is a [send_datagram], has a next hop of address
    [ip]. *)
Definition sends_to (ip : N) (c : call) : Prop :=
  match c with
  | call_send_datagram _ next_hop => ipv4_numeric next_hop = ip
  | call_tick _ => True
  end.

(** The pairs that the [send_datagram] calls among [calls] put on the list
    of waiting datagrams when each of them misses the ARP table. *)
Fixpoint blocked_by (calls : list call) : list (Address * InternetDatagram) :=
  match calls with
  | [] => []
  | call_send_datagram dgram next_hop :: rest => (next_hop, dgram) :: blocked_by rest
  | call_tick _ :: rest => blocked_by rest
  end.

(** A caller that polls [maybe_send] up to [n] times and stops at the first
    empty answer; the frames it gets, first one first. *)
Fixpoint maybe_send_all (n : nat) (ni : NetworkInterface)
    : NetworkInterface * list Frame :=
  match n with
  | O => (ni, [])
  | S n' =>
      match maybe_send ni with
      | (ni1, Some frame) =>
          let rest := maybe_send_all n' ni1 in (rest.1, frame :: rest.2)
      | (ni1, None) => (ni1, [])
      end
  end.

(** Every timer is running and within its default: an entry of the ARP
    table has between 1 and 30000 ms left, a pending request between 1 and
    5000 ms. *)
Definition timers_in_range (ni : NetworkInterface) : Prop :=
  (∀ ip entry, arp_table_ ni !! ip = Some entry →
     0 < ttl entry ∧ ttl entry ≤ arp_entry_default_ttl_)
  ∧ (∀ ip t, waiting_arp_response_ip_addr_ ni !! ip = Some t →
       0 < t ∧ t ≤ arp_response_default_ttl_).

(** A frame as [construct_ethernet_frame] builds it for the interface with
    Ethernet address [own]: sent from [own], of type IPv4 or ARP. *)
Definition sent_by (own : EthernetAddress) (frame : Frame) : Prop :=
  src (header frame) = own
  ∧ (type (header frame) = TYPE_IPv4 ∨ type (header frame) = TYPE_ARP).

End Interface.

(** A small stack on which the operations can be run: addresses are
    numbers, a datagram is a number and a payload is either a serialized
    datagram, a serialized ARP message or bytes that parse as neither. *)

Module Toy.
Inductive bytes :=
| OfDgram (d : N)
| OfArp (m : ARPMessage N)
| Garbage.

Definition stack : Stack := {|
  Address := N;
  ipv4_numeric := λ a, a;
  EthernetAddress := N;
  ETHERNET_BROADCAST := 0xffffffffffff%N;
  EthernetAddress_empty := 0%N;
  InternetDatagram := N;
  Buffers := bytes;
  serialize_dgram := OfDgram;
  parse_dgram := λ b, match b with OfDgram d => Some d | _ => None end;
  serialize_arp := OfArp;
  parse_arp := λ b, match b with OfArp m => Some m | _ => None end;
  TYPE_IPv4 := 0x800%N;
  TYPE_ARP := 0x806%N;
  TYPE_IPv4_ARP := ltac:(discriminate);
  OPCODE_REQUEST := 1%N;
  OPCODE_REPLY := 2%N
|}.

#[local] Existing Instance stack.

(** The interface of the scenario has Ethernet address AA and IP address
    1.1.1.1; its peer has Ethernet address BB and IP address 2.2.2.2. *)
Definition my_eth : EthernetAddress := 0xAA%N.
Definition my_ip : Address := 0x01010101%N.
Definition peer_eth : EthernetAddress := 0xBB%N.
Definition peer_ip : Address := 0x02020202%N.
Definition dgram7 : InternetDatagram := 7%N.
Definition dgram8 : InternetDatagram := 8%N.
Definition dgram9 : InternetDatagram := 9%N.

Definition me : NetworkInterface := NetworkInterface_new my_eth my_ip.

(** After sending datagram 7 to the peer: one ARP request is out and the
    datagram waits. *)
Definition asked : NetworkInterface := send_datagram dgram7 peer_ip me.

(** With the peer already in the ARP table. *)
Definition peer_entry : ARP_Entry := {| eth_addr := peer_eth; ttl := 30000%N |}.
Definition known : NetworkInterface :=
  with_arp_table {[ 0x02020202%N := peer_entry ]} me.

Definition reply_msg : ARPMessage EthernetAddress :=
  {| opcode := 2%N;
     sender_ethernet_address := peer_eth; sender_ip_address := 0x02020202%N;
     target_ethernet_address := my_eth; target_ip_address := 0x01010101%N |}.

(** The peer's ARP reply, a frame for some other station and a frame for
    us whose payload does not parse. *)
Definition reply : EthernetFrame EthernetAddress Buffers :=
  {| header := {| dst := my_eth; src := peer_eth; type := 0x806%N |};
     payload := OfArp reply_msg |}.

Definition for_other : EthernetFrame EthernetAddress Buffers :=
  {| header := {| dst := 0xCC%N : EthernetAddress; src := peer_eth; type := 0x806%N |};
     payload := OfArp reply_msg |}.

Definition malformed : EthernetFrame EthernetAddress Buffers :=
  {| header := {| dst := my_eth; src := peer_eth; type := 0x800%N |};
     payload := Garbage |}.

(** The peer's own interface, and a third station on the same link. *)
Definition peer : NetworkInterface := NetworkInterface_new peer_eth peer_ip.
Definition stranger : NetworkInterface :=
  NetworkInterface_new (0xCC%N : EthernetAddress) (0x03030303%N : Address).

(** The peer asks for our address. *)
Definition request_msg : ARPMessage EthernetAddress :=
  {| opcode := 1%N;
     sender_ethernet_address := peer_eth; sender_ip_address := 0x02020202%N;
     target_ethernet_address := 0%N; target_ip_address := 0x01010101%N |}.

Definition request : EthernetFrame EthernetAddress Buffers :=
  {| header := {| dst := ETHERNET_BROADCAST; src := peer_eth; type := 0x806%N |};
     payload := OfArp request_msg |}.

(** More sends to the peer within the 5000 ms of the first request. *)
Definition more_sends : list call :=
  [call_tick 1000%N; call_send_datagram dgram8 peer_ip;
   call_tick 3999%N; call_send_datagram dgram9 peer_ip].
End Toy.

(** * Properties *)

Section Properties.
Context {stack : Stack}.

Local Open Scope N_scope.

Local Abbreviation Frame := (EthernetFrame EthernetAddress Buffers).

(** ** [send_datagram] *)

Lemma send_datagram_hit dgram next_hop ni entry :
  arp_table_ ni !! ipv4_numeric next_hop = Some entry →
  send_datagram dgram next_hop ni
  = push_frame (ipv4_frame ni (eth_addr entry) dgram) ni.
Proof. intros Hhit. unfold send_datagram. by rewrite Hhit. Qed.

Lemma send_datagram_arp_table dgram next_hop ni :
  arp_table_ (send_datagram dgram next_hop ni) = arp_table_ ni.
Proof.
  unfold send_datagram.
  destruct (arp_table_ ni !! _); [done|].
  by destruct (waiting_arp_response_ip_addr_ ni !! _).
Qed.

Lemma send_datagram_miss_waiting_dgrams dgram next_hop ni :
  arp_table_ ni !! ipv4_numeric next_hop = None →
  waiting_arp_internet_datagrams_ (send_datagram dgram next_hop ni)
  = waiting_arp_internet_datagrams_ ni ++ [(next_hop, dgram)].
Proof.
  intros Hmiss. unfold send_datagram. rewrite Hmiss.
  by destruct (waiting_arp_response_ip_addr_ ni !! _).
Qed.

Lemma send_datagram_miss_fresh dgram next_hop ni :
  arp_table_ ni !! ipv4_numeric next_hop = None →
  waiting_arp_response_ip_addr_ ni !! ipv4_numeric next_hop = None →
  _frames_out (send_datagram dgram next_hop ni)
  = _frames_out ni ++ [arp_request_frame ni (ipv4_numeric next_hop)]
  ∧ waiting_arp_response_ip_addr_ (send_datagram dgram next_hop ni)
    = <[ipv4_numeric next_hop := arp_response_default_ttl_]>
        (waiting_arp_response_ip_addr_ ni).
Proof. intros Hmiss Hfresh. unfold send_datagram. by rewrite Hmiss, Hfresh. Qed.

Lemma send_datagram_miss_pending dgram next_hop ni t :
  arp_table_ ni !! ipv4_numeric next_hop = None →
  waiting_arp_response_ip_addr_ ni !! ipv4_numeric next_hop = Some t →
  _frames_out (send_datagram dgram next_hop ni) = _frames_out ni
  ∧ waiting_arp_response_ip_addr_ (send_datagram dgram next_hop ni)
    = waiting_arp_response_ip_addr_ ni.
Proof. intros Hmiss Hpend. unfold send_datagram. by rewrite Hmiss, Hpend. Qed.

(** ** The loop of [handle_arp_frame] *)

Lemma resend_waiting_fuel fuel src_ip_addr entry i ni :
  arp_table_ ni !! src_ip_addr = Some entry →
  resend_waiting fuel src_ip_addr i ni
  = if decide (length (waiting_arp_internet_datagrams_ ni) - i < fuel)%nat
    then Some (resent src_ip_addr entry i ni) else None.
Proof.
  revert i ni. induction fuel as [|fuel IH]; intros i ni Hhit.
  { destruct (decide _); [lia|done]. }
  cbn [resend_waiting].
  destruct (waiting_arp_internet_datagrams_ ni !! i) as [[next_hop dgram]|] eqn:Hi.
  - pose proof (lookup_lt_Some _ _ _ Hi) as Hlt.
    assert (Hdrop : drop i (waiting_arp_internet_datagrams_ ni)
                    = (next_hop, dgram) :: drop (S i) (waiting_arp_internet_datagrams_ ni))
      by (by apply drop_S).
    destruct (decide (ipv4_numeric next_hop = src_ip_addr)) as [Heq|Hne].
    + rewrite (send_datagram_hit _ _ _ entry) by (by rewrite Heq).
      erewrite IH by exact Hhit.
      cbn [waiting_arp_internet_datagrams_ with_waiting_dgrams push_frame].
      rewrite length_delete by eauto.
      repeat destruct (decide _); try lia; [|done]. f_equal.
      unfold resent; simpl. rewrite Hdrop.
      rewrite filter_cons_False by (simpl; tauto).
      rewrite filter_cons_True by done.
      rewrite delete_take_drop.
      rewrite take_app_length', drop_app_length' by (rewrite length_take; lia).
      rewrite fmap_cons, <- app_assoc. reflexivity.
    + rewrite (IH _ _ Hhit).
      repeat destruct (decide _); try lia; [|done]. f_equal.
      unfold resent; simpl. rewrite Hdrop.
      rewrite filter_cons_True by done.
      rewrite (filter_cons_False (λ pair, ipv4_numeric pair.1 = src_ip_addr)) by done.
      rewrite (take_S_r _ _ _ Hi), <- app_assoc. reflexivity.
  - apply lookup_ge_None in Hi. destruct (decide _); [|lia]. f_equal.
    unfold resent. rewrite drop_ge, take_ge by lia.
    rewrite !filter_nil, fmap_nil, !app_nil_r. by destruct ni.
Qed.

Lemma filter_all {A} (P : A → Prop) `{!∀ x, Decision (P x)} (l : list A) :
  Forall P l → filter P l = l.
Proof.
  induction 1 as [|x l Hx Hl IH]; [done|].
  by rewrite filter_cons_True, IH.
Qed.

Lemma filter_none {A} (P : A → Prop) `{!∀ x, Decision (P x)} (l : list A) :
  Forall (λ x, ¬ P x) l → filter P l = [].
Proof.
  induction 1 as [|x l Hx Hl IH]; [done|].
  by rewrite filter_cons_False, IH.
Qed.

(** ** The loops of [tick]

    The two lemmas on [foldl] hold for the entries in any order [l] without
    a repeated key, so that the order in which the container hands out its
    entries does not matter. *)

Lemma tick_arp_fold ms (l : list (N * ARP_Entry)) (acc : gmap N ARP_Entry) ip :
  NoDup l.*1 →
  foldl (tick_arp_step ms) acc l !! ip
  = match (list_to_map l : gmap N ARP_Entry) !! ip with
    | Some entry => aged_entry ms entry
    | None => acc !! ip
    end.
Proof.
  revert acc. induction l as [|[k entry] l IH]; intros acc Hnd; [done|].
  simpl in *. apply NoDup_cons in Hnd as [Hk Hnd]. rewrite IH by done.
  destruct (decide (k = ip)) as [->|Hne].
  - rewrite lookup_insert_eq, (not_elem_of_list_to_map_1 _ _ Hk).
    unfold tick_arp_step, aged_entry; simpl.
    destruct (decide (ttl entry ≤ ms)).
    + apply lookup_delete_eq.
    + apply lookup_insert_eq.
  - rewrite lookup_insert_ne by done.
    destruct (list_to_map l !! ip); [done|].
    unfold tick_arp_step; simpl. destruct (decide (ttl entry ≤ ms)).
    + by rewrite lookup_delete_ne.
    + by rewrite lookup_insert_ne.
Qed.

Lemma tick_waiting_fold ms (l : list (N * N)) acc :
  NoDup l.*1 →
  (∀ ip, (foldl (tick_waiting_step ms) acc l).1 !! ip
         = match (list_to_map l : gmap N N) !! ip with
           | Some t => aged ms t
           | None => acc.1 !! ip
           end)
  ∧ (foldl (tick_waiting_step ms) acc l).2
    = filter (λ pair, not_expired ms (list_to_map l) (ipv4_numeric pair.1)) acc.2.
Proof.
  revert acc. induction l as [|[k t] l IH]; intros [w q] Hnd.
  { split; [done|]. simpl. symmetry. by apply filter_all, Forall_true. }
  simpl in *. apply NoDup_cons in Hnd as [Hk Hnd].
  destruct (IH (tick_waiting_step ms (w, q) (k, t)) Hnd) as [IHw IHq].
  pose proof (not_elem_of_list_to_map_1 (M:=gmap N) _ _ Hk) as Hnone.
  split.
  - intros ip. rewrite IHw. destruct (decide (k = ip)) as [->|Hne].
    + rewrite lookup_insert_eq, Hnone.
      unfold tick_waiting_step, aged; simpl. destruct (decide (t ≤ ms)); simpl.
      * apply lookup_delete_eq.
      * apply lookup_insert_eq.
    + rewrite lookup_insert_ne by done.
      destruct (list_to_map l !! ip); [done|].
      unfold tick_waiting_step; simpl. destruct (decide (t ≤ ms)); simpl.
      * by rewrite lookup_delete_ne.
      * by rewrite lookup_insert_ne.
  - rewrite IHq. unfold tick_waiting_step; simpl.
    destruct (decide (t ≤ ms)) as [Hle|Hgt]; simpl.
    + rewrite list_filter_filter. apply list_filter_iff. intros [hop dgram]; simpl.
      unfold not_expired. destruct (decide (k = ipv4_numeric hop)) as [->|Hne].
      * rewrite lookup_insert_eq. split; [tauto|lia].
      * rewrite lookup_insert_ne by done. split; [tauto|].
        intros ?. split; [done|congruence].
    + apply list_filter_iff. intros [hop dgram]; simpl.
      unfold not_expired. destruct (decide (k = ipv4_numeric hop)) as [->|Hne].
      * rewrite lookup_insert_eq, Hnone. split; [lia|done].
      * by rewrite lookup_insert_ne.
Qed.

Lemma tick_arp_table_lookup ms ni ip :
  arp_table_ (tick ms ni) !! ip = arp_table_ ni !! ip ≫= aged_entry ms.
Proof.
  unfold tick; simpl.
  rewrite tick_arp_fold by apply NoDup_fst_map_to_list.
  rewrite list_to_map_to_list. by destruct (arp_table_ ni !! ip).
Qed.

Lemma tick_waiting_lookup ms ni ip :
  waiting_arp_response_ip_addr_ (tick ms ni) !! ip
  = waiting_arp_response_ip_addr_ ni !! ip ≫= aged ms.
Proof.
  unfold tick; simpl.
  edestruct tick_waiting_fold as [-> _]; [apply NoDup_fst_map_to_list|].
  rewrite list_to_map_to_list; simpl.
  by destruct (waiting_arp_response_ip_addr_ ni !! ip).
Qed.

Lemma tick_waiting_dgrams ms ni :
  waiting_arp_internet_datagrams_ (tick ms ni)
  = filter (λ pair, not_expired ms (waiting_arp_response_ip_addr_ ni)
                      (ipv4_numeric pair.1))
      (waiting_arp_internet_datagrams_ ni).
Proof.
  unfold tick; simpl.
  edestruct tick_waiting_fold as [_ ->]; [apply NoDup_fst_map_to_list|].
  by rewrite list_to_map_to_list.
Qed.

Lemma tick_frames_out ms ni : _frames_out (tick ms ni) = _frames_out ni.
Proof. done. Qed.

(** ** [recv_frame] *)

Lemma recv_frame_not_addressed fuel frame ni :
  ¬ addressed_to ni frame → recv_frame fuel frame ni = Some (ni, None).
Proof.
  unfold addressed_to, recv_frame. intros Hno.
  rewrite !bool_decide_eq_true_2; [done|tauto..].
Qed.

Lemma recv_frame_addressed fuel frame ni :
  addressed_to ni frame →
  recv_frame fuel frame ni
  = if decide (type (header frame) = TYPE_IPv4)
    then Some (ni, handle_IPv4_frame frame)
    else if decide (type (header frame) = TYPE_ARP)
    then handle_arp_frame fuel frame ni
    else Some (ni, None).
Proof.
  unfold addressed_to, recv_frame. intros [Hto|Hto].
  - by rewrite (bool_decide_eq_false_2 (_ ≠ ethernet_address_ ni)) by tauto.
  - rewrite (bool_decide_eq_false_2 (_ ≠ ETHERNET_BROADCAST)) by tauto.
    by rewrite andb_false_r.
Qed.

Lemma handle_arp_frame_learn fuel frame ni arp_msg :
  parse_arp (payload frame) = Some arp_msg →
  is_valid_arp_request ni arp_msg || is_valid_arp_reply ni arp_msg = true →
  handle_arp_frame fuel frame ni
  = if decide (length (waiting_arp_internet_datagrams_ ni) < fuel)%nat
    then Some (learned ni arp_msg, None) else None.
Proof.
  intros Hparse Hvalid. unfold handle_arp_frame. rewrite Hparse, Hvalid.
  erewrite resend_waiting_fuel by apply lookup_insert_eq.
  replace (length (waiting_arp_internet_datagrams_ _) - 0)%nat
    with (length (waiting_arp_internet_datagrams_ ni))
    by (destruct (is_valid_arp_request ni arp_msg); simpl; lia).
  destruct (decide _); [|done]. do 2 f_equal.
  unfold resent, learned, frames_on_learning, waiting_for, waiting_not_for.
  destruct (is_valid_arp_request ni arp_msg); simpl;
    rewrite ?drop_0, <- ?app_assoc; reflexivity.
Qed.

Lemma handle_arp_frame_ignore fuel frame ni arp_msg :
  parse_arp (payload frame) = Some arp_msg →
  is_valid_arp_request ni arp_msg || is_valid_arp_reply ni arp_msg = false →
  handle_arp_frame fuel frame ni = Some (ni, None).
Proof.
  intros Hparse Hvalid. unfold handle_arp_frame. rewrite Hparse, Hvalid.
  apply orb_false_iff in Hvalid as [-> _]. done.
Qed.

Lemma handle_arp_frame_malformed fuel frame ni :
  parse_arp (payload frame) = None →
  handle_arp_frame fuel frame ni = Some (ni, None).
Proof. intros Hparse. unfold handle_arp_frame. by rewrite Hparse. Qed.

(** Whatever the fuel, a call that returns leaves the state as it was or
    in the state [learned]. *)
Lemma recv_frame_cases fuel frame ni ni' res :
  recv_frame fuel frame ni = Some (ni', res) →
  ni' = ni ∨ ∃ arp_msg, ni' = learned ni arp_msg.
Proof.
  intros Hrecv. destruct (decide (addressed_to ni frame)) as [Hto|Hno].
  - rewrite recv_frame_addressed in Hrecv by done.
    destruct (decide (type (header frame) = TYPE_IPv4)); [left; congruence|].
    destruct (decide (type (header frame) = TYPE_ARP)); [|left; congruence].
    destruct (parse_arp (payload frame)) as [arp_msg|] eqn:Hparse.
    + destruct (is_valid_arp_request ni arp_msg || is_valid_arp_reply ni arp_msg)
        eqn:Hvalid.
      * rewrite (handle_arp_frame_learn _ _ _ arp_msg) in Hrecv by done.
        destruct (decide _); [|done]. right. exists arp_msg. congruence.
      * rewrite (handle_arp_frame_ignore _ _ _ arp_msg) in Hrecv by done.
        left; congruence.
    + rewrite handle_arp_frame_malformed in Hrecv by done. left; congruence.
  - rewrite recv_frame_not_addressed in Hrecv by done. left; congruence.
Qed.

(** With more fuel than there are waiting datagrams the call returns. *)
Lemma recv_frame_returns fuel frame ni :
  (length (waiting_arp_internet_datagrams_ ni) < fuel)%nat →
  is_Some (recv_frame fuel frame ni).
Proof.
  intros Hfuel. destruct (decide (addressed_to ni frame)) as [Hto|Hno].
  - rewrite recv_frame_addressed by done.
    destruct (decide (type (header frame) = TYPE_IPv4)); [done|].
    destruct (decide (type (header frame) = TYPE_ARP)); [|done].
    destruct (parse_arp (payload frame)) as [arp_msg|] eqn:Hparse.
    + destruct (is_valid_arp_request ni arp_msg || is_valid_arp_reply ni arp_msg)
        eqn:Hvalid.
      * rewrite (handle_arp_frame_learn _ _ _ arp_msg) by done.
        by rewrite decide_True.
      * by rewrite (handle_arp_frame_ignore _ _ _ arp_msg).
    + by rewrite handle_arp_frame_malformed.
  - by rewrite recv_frame_not_addressed.
Qed.

(** ** The invariants of the reachable states *)

Lemma step_invariants ni ni' :
  step ni ni' →
  table_excludes_pending ni ∧ waiting_has_pending ni →
  table_excludes_pending ni' ∧ waiting_has_pending ni'.
Proof.
  unfold table_excludes_pending, waiting_has_pending.
  intros Hstep [Htable Hwaiting].
  destruct Hstep as [dgram next_hop ni|fuel frame ni ni' res Hrecv|ms ni|ni].
  - (* send_datagram *)
    unfold send_datagram.
    destruct (arp_table_ ni !! ipv4_numeric next_hop) as [entry|] eqn:Hhop;
      [by split|].
    destruct (waiting_arp_response_ip_addr_ ni !! ipv4_numeric next_hop)
      as [t|] eqn:Hpending; simpl; split.
    + done.
    + intros pair [Hin| ->%list_elem_of_singleton]%elem_of_app; [auto|].
      simpl. by rewrite Hpending.
    + intros ip Hip. rewrite lookup_insert_ne; [auto|].
      intros <-. rewrite Hhop in Hip. by destruct Hip.
    + intros pair [Hin| ->%list_elem_of_singleton]%elem_of_app.
      * rewrite lookup_insert_is_Some'. auto.
      * simpl. rewrite lookup_insert_eq. eauto.
  - (* recv_frame *)
    apply recv_frame_cases in Hrecv as [->|[arp_msg ->]]; [by split|].
    simpl; split.
    + intros ip Hip. destruct (decide (sender_ip_address arp_msg = ip)) as [->|Hne].
      * apply lookup_delete_eq.
      * rewrite lookup_insert_ne in Hip by done.
        rewrite lookup_delete_ne by done. auto.
    + intros pair [Hne Hin]%list_elem_of_filter.
      rewrite lookup_delete_ne by (intros Heq; by apply Hne). auto.
  - (* tick *)
    split.
    + intros ip Hip. rewrite tick_arp_table_lookup in Hip.
      rewrite tick_waiting_lookup.
      destruct (arp_table_ ni !! ip) as [entry|] eqn:Hentry.
      * rewrite Htable; [done|eauto].
      * by destruct Hip.
    + intros pair. rewrite tick_waiting_dgrams, tick_waiting_lookup.
      intros [Hlive Hin]%list_elem_of_filter. unfold not_expired in Hlive.
      destruct (Hwaiting pair Hin) as [t Ht]. rewrite Ht in Hlive |- *.
      simpl. unfold aged. rewrite decide_False by lia. eauto.
  - (* maybe_send *)
    unfold maybe_send. destruct (_frames_out ni); by split.
Qed.

Lemma reachable_invariants ni :
  reachable ni → table_excludes_pending ni ∧ waiting_has_pending ni.
Proof.
  intros (ethernet_address & ip_address & Hrun).
  revert ni Hrun.
  apply (rtc_ind_r (λ ni, table_excludes_pending ni ∧ waiting_has_pending ni));
    [|by eauto using step_invariants].
  split.
  - intros ip [entry Hentry]. simpl in Hentry. by rewrite lookup_empty in Hentry.
  - intros pair Hin. simpl in Hin. by apply elem_of_nil in Hin.
Qed.

(** [recv_frame] can always take its step: the state it returns with
    enough fuel is reachable again. *)
Lemma reachable_recv_frame frame ni :
  reachable ni →
  ∃ ni' res,
    recv_frame (S (length (waiting_arp_internet_datagrams_ ni))) frame ni
    = Some (ni', res)
    ∧ reachable ni'.
Proof.
  intros (ethernet_address & ip_address & Hrun).
  destruct (recv_frame_returns
              (S (length (waiting_arp_internet_datagrams_ ni))) frame ni)
    as [[ni' res] Hrecv]; [lia|].
  exists ni', res. split; [done|].
  exists ethernet_address, ip_address.
  eapply rtc_r; [exact Hrun|]. by eapply step_recv_frame.
Qed.

(** ** Sends to one address while its request is pending *)

Lemma tick_keeps_waiting_for ms ni ip t :
  waiting_arp_response_ip_addr_ ni !! ip = Some t → ms < t →
  waiting_for ip (tick ms ni) = waiting_for ip ni.
Proof.
  intros Hpending Hlive. unfold waiting_for.
  rewrite tick_waiting_dgrams, list_filter_filter.
  apply list_filter_iff. intros pair. split; [tauto|].
  intros Hip. split; [done|]. unfold not_expired. by rewrite Hip, Hpending.
Qed.

Lemma run_while_pending ip calls ni t :
  Forall (sends_to ip) calls →
  arp_table_ ni !! ip = None →
  waiting_arp_response_ip_addr_ ni !! ip = Some t →
  elapsed calls < t →
  arp_table_ (run calls ni) !! ip = None
  ∧ waiting_arp_response_ip_addr_ (run calls ni) !! ip = Some (t - elapsed calls)
  ∧ _frames_out (run calls ni) = _frames_out ni
  ∧ waiting_for ip (run calls ni) = waiting_for ip ni ++ blocked_by calls.
Proof.
  revert ni t.
  induction calls as [|[dgram next_hop|ms] calls IH]; intros ni t Hsends Hmiss Hpending Hlive.
  - simpl. rewrite N.sub_0_r, app_nil_r. done.
  - apply Forall_cons in Hsends as [Hhop Hsends]. simpl in Hhop, Hlive. subst ip.
    destruct (send_datagram_miss_pending dgram next_hop ni t) as [Hframes Hw]; [done..|].
    pose proof (send_datagram_miss_waiting_dgrams dgram next_hop ni Hmiss) as Hq.
    destruct (IH (send_datagram dgram next_hop ni) t) as (IH1 & IH2 & IH3 & IH4);
      [done|by rewrite send_datagram_arp_table|by rewrite Hw|done|].
    change (run (call_send_datagram dgram next_hop :: calls) ni)
      with (run calls (send_datagram dgram next_hop ni)).
    split_and!; [done|done|congruence|].
    rewrite IH4. unfold waiting_for at 1. rewrite Hq, filter_app.
    rewrite filter_cons_True, filter_nil by done.
    simpl. by rewrite <- app_assoc.
  - apply Forall_cons in Hsends as [_ Hsends]. simpl in Hlive.
    destruct (IH (tick ms ni) (t - ms)) as (IH1 & IH2 & IH3 & IH4); [done|..].
    { by rewrite tick_arp_table_lookup, Hmiss. }
    { rewrite tick_waiting_lookup, Hpending. simpl. unfold aged.
      by rewrite decide_False by lia. }
    { lia. }
    change (run (call_tick ms :: calls) ni) with (run calls (tick ms ni)).
    split_and!; [done| |done|].
    + rewrite IH2. f_equal. simpl. lia.
    + rewrite IH4. by rewrite (tick_keeps_waiting_for _ _ _ t) by (done || lia).
Qed.

Lemma elapsed_app calls1 calls2 :
  elapsed (calls1 ++ calls2) = elapsed calls1 + elapsed calls2.
Proof.
  induction calls1 as [|[dgram next_hop|ms] calls1 IH]; simpl; lia.
Qed.

Lemma resend_calls_hit fuel src_ip_addr entry i ni :
  arp_table_ ni !! src_ip_addr = Some entry →
  Forall takes_cache_hit_branch (resend_calls fuel src_ip_addr i ni).
Proof.
  revert i ni. induction fuel as [|fuel IH]; intros i ni Hhit; [constructor|].
  simpl. destruct (waiting_arp_internet_datagrams_ ni !! i) as [[next_hop dgram]|];
    [|constructor].
  destruct (decide (ipv4_numeric next_hop = src_ip_addr)) as [Heq|Hne]; [|eauto].
  constructor.
  - unfold takes_cache_hit_branch; simpl. rewrite Heq, Hhit. eauto.
  - apply IH. simpl. by rewrite send_datagram_arp_table.
Qed.

Lemma resend_calls_length fuel src_ip_addr entry i ni :
  arp_table_ ni !! src_ip_addr = Some entry →
  (length (waiting_arp_internet_datagrams_ ni) - i < fuel)%nat →
  length (resend_calls fuel src_ip_addr i ni)
  = length (filter (λ pair, ipv4_numeric pair.1 = src_ip_addr)
              (drop i (waiting_arp_internet_datagrams_ ni))).
Proof.
  revert i ni. induction fuel as [|fuel IH]; intros i ni Hhit Hfuel; [lia|].
  cbn [resend_calls].
  destruct (waiting_arp_internet_datagrams_ ni !! i) as [[next_hop dgram]|] eqn:Hi.
  - pose proof (lookup_lt_Some _ _ _ Hi) as Hlt.
    rewrite (drop_S _ _ _ Hi).
    destruct (decide (ipv4_numeric next_hop = src_ip_addr)) as [Heq|Hne].
    + rewrite (send_datagram_hit _ _ _ entry) by (by rewrite Heq).
      rewrite filter_cons_True by done. cbn [length]. f_equal.
      erewrite IH; [|exact Hhit|].
      * cbn [waiting_arp_internet_datagrams_ with_waiting_dgrams push_frame].
        rewrite delete_take_drop.
        by rewrite drop_app_length' by (rewrite length_take; lia).
      * cbn [waiting_arp_internet_datagrams_ with_waiting_dgrams push_frame].
        rewrite length_delete by eauto. lia.
    + rewrite filter_cons_False by done. apply (IH _ _ Hhit). lia.
  - apply lookup_ge_None in Hi. by rewrite drop_ge by lia.
Qed.

Lemma resend_waiting_traced_eq fuel src_ip_addr i ni :
  resend_waiting_traced fuel src_ip_addr i ni
  = (resend_waiting fuel src_ip_addr i ni, resend_calls fuel src_ip_addr i ni).
Proof.
  revert i ni. induction fuel as [|fuel IH]; intros i ni; [done|].
  cbn [resend_waiting_traced resend_waiting resend_calls].
  destruct (waiting_arp_internet_datagrams_ ni !! i) as [[next_hop dgram]|]; [|done].
  destruct (decide (ipv4_numeric next_hop = src_ip_addr)); [|apply IH].
  cbv zeta. by rewrite IH.
Qed.

(** Were the loop to start without an entry for [src_ip_addr] in the ARP
    table, with a datagram for that address at or after its position, it
    would not end: every call of [send_datagram] would put the datagram back
    at the end of the list. *)
Lemma resend_waiting_miss_never_ends fuel src_ip_addr i ni :
  arp_table_ ni !! src_ip_addr = None →
  Exists (λ pair, ipv4_numeric pair.1 = src_ip_addr)
    (drop i (waiting_arp_internet_datagrams_ ni)) →
  resend_waiting fuel src_ip_addr i ni = None.
Proof.
  revert i ni. induction fuel as [|fuel IH]; intros i ni Hmiss Hleft; [done|].
  cbn [resend_waiting].
  destruct (waiting_arp_internet_datagrams_ ni !! i) as [[next_hop dgram]|] eqn:Hi.
  - pose proof (lookup_lt_Some _ _ _ Hi) as Hlt.
    rewrite (drop_S _ _ _ Hi) in Hleft.
    destruct (decide (ipv4_numeric next_hop = src_ip_addr)) as [Heq|Hne].
    + apply IH.
      * cbn [arp_table_ with_waiting_dgrams]. by rewrite send_datagram_arp_table.
      * cbn [waiting_arp_internet_datagrams_ with_waiting_dgrams].
        rewrite send_datagram_miss_waiting_dgrams by (by rewrite Heq).
        rewrite delete_take_drop.
        rewrite drop_app_length' by (rewrite length_take, length_app; simpl; lia).
        rewrite drop_app_le by lia.
        apply Exists_app. right. by apply Exists_cons_hd.
    + apply IH; [done|]. by apply Exists_cons in Hleft as [?|?].
  - apply lookup_ge_None in Hi. rewrite drop_ge in Hleft by lia.
    by apply Exists_nil in Hleft.
Qed.

(** * The properties of the specification *)

(** C1 (resolution drains the queue).  Let [n] datagrams wait for the next
    hop [H], which has no entry in the ARP table.  A frame that passes the
    address filter and carries an ARP request for our IP address, or an ARP
    reply for our Ethernet address, sent by [H], makes [recv_frame] return
    no datagram.  Of the frames it pushes, those of type IPv4 are exactly
    the [n] waiting datagrams, each addressed to the Ethernet address of the
    sender; the pending request for [H] is erased, no datagram for [H] is
    left waiting (the others stay, in order), and the ARP table maps [H] to
    the sender's Ethernet address with a time to live of 30000 ms. *)
Theorem recv_frame_resolution_drains_queue
    fuel frame ni arp_msg (H : N) (n : nat) :
  addressed_to ni frame →
  type (header frame) = TYPE_ARP →
  parse_arp (payload frame) = Some arp_msg →
  is_valid_arp_request ni arp_msg ∨ is_valid_arp_reply ni arp_msg →
  sender_ip_address arp_msg = H →
  length (waiting_for H ni) = n →
  arp_table_ ni !! H = None →
  (length (waiting_arp_internet_datagrams_ ni) < fuel)%nat →
  ∃ ni' enqueued,
    recv_frame fuel frame ni = Some (ni', None)
    ∧ _frames_out ni' = _frames_out ni ++ enqueued
    ∧ filter (λ f, type (header f) = TYPE_IPv4) enqueued
      = (λ pair, ipv4_frame ni (sender_ethernet_address arp_msg) pair.2)
        <$> waiting_for H ni
    ∧ length (filter (λ f, type (header f) = TYPE_IPv4) enqueued) = n
    ∧ Forall (λ f, dst (header f) = sender_ethernet_address arp_msg)
        (filter (λ f, type (header f) = TYPE_IPv4) enqueued)
    ∧ waiting_arp_response_ip_addr_ ni'
      = delete H (waiting_arp_response_ip_addr_ ni)
    ∧ waiting_arp_internet_datagrams_ ni' = waiting_not_for H ni
    ∧ waiting_for H ni' = []
    ∧ arp_table_ ni'
      = <[H := {| eth_addr := sender_ethernet_address arp_msg; ttl := 30000 |}]>
          (arp_table_ ni).
Proof.
  intros Hto Htype Hparse Hvalid <- <- _ Hfuel.
  assert (is_valid_arp_request ni arp_msg || is_valid_arp_reply ni arp_msg = true)
    as Hvalid'.
  { apply Is_true_eq_true, orb_True. exact Hvalid. }
  pose proof TYPE_IPv4_ARP as Hdistinct.
  exists (learned ni arp_msg), (frames_on_learning ni arp_msg).
  assert (filter (λ f : Frame, type (header f) = TYPE_IPv4)
            (frames_on_learning ni arp_msg)
          = (λ pair, ipv4_frame ni (sender_ethernet_address arp_msg) pair.2)
            <$> waiting_for (sender_ip_address arp_msg) ni) as Hfilter.
  { unfold frames_on_learning. rewrite filter_app.
    rewrite (filter_all _ (_ <$> _)) by (by apply Forall_fmap, Forall_true).
    destruct (is_valid_arp_request ni arp_msg); [|done].
    rewrite filter_cons_False; [done|]. simpl. congruence. }
  split_and!.
  - rewrite recv_frame_addressed by done.
    rewrite decide_False by congruence. rewrite decide_True by done.
    rewrite (handle_arp_frame_learn _ _ _ arp_msg) by done.
    by rewrite decide_True.
  - done.
  - done.
  - by rewrite Hfilter, length_fmap.
  - rewrite Hfilter. by apply Forall_fmap, Forall_true.
  - done.
  - done.
  - unfold waiting_for, learned, waiting_not_for.
    cbn [waiting_arp_internet_datagrams_].
    apply filter_none, Forall_forall. by intros pair [? _]%list_elem_of_filter.
  - done.
Qed.

(** C2 (one request per suppression window).  The ARP table has no entry
    for the address [A], and no request for [A] is pending, when a first
    datagram is sent to [A].  The calls that follow are further sends to [A]
    and ticks that add up to less than the 5000 ms of the request timer.
    Then the first call pushes one frame, the ARP request for [A], sent to
    the broadcast address with type ARP; no later call pushes a frame; and
    every call of [send_datagram], the first one included, appends its pair
    of next hop and datagram to the list of waiting datagrams, where all of
    them still wait at the end. *)
Theorem send_datagram_one_request_per_window
    (A : N) dgram next_hop (calls : list call) ni :
  ipv4_numeric next_hop = A →
  Forall (sends_to A) calls →
  arp_table_ ni !! A = None →
  waiting_arp_response_ip_addr_ ni !! A = None →
  elapsed calls < 5000 →
  let ni1 := send_datagram dgram next_hop ni in
  _frames_out ni1 = _frames_out ni ++ [arp_request_frame ni A]
  ∧ dst (header (arp_request_frame ni A)) = ETHERNET_BROADCAST
  ∧ type (header (arp_request_frame ni A)) = TYPE_ARP
  ∧ waiting_arp_internet_datagrams_ ni1
    = waiting_arp_internet_datagrams_ ni ++ [(next_hop, dgram)]
  ∧ (∀ before dgram' next_hop' after,
       calls = before ++ call_send_datagram dgram' next_hop' :: after →
       let ni2 := run before ni1 in
       _frames_out (send_datagram dgram' next_hop' ni2) = _frames_out ni2
       ∧ waiting_arp_internet_datagrams_ (send_datagram dgram' next_hop' ni2)
         = waiting_arp_internet_datagrams_ ni2 ++ [(next_hop', dgram')])
  ∧ _frames_out (run calls ni1) = _frames_out ni ++ [arp_request_frame ni A]
  ∧ waiting_for A (run calls ni1)
    = waiting_for A ni ++ (next_hop, dgram) :: blocked_by calls.
Proof.
  intros Hhop Hsends Hmiss Hfresh Hwindow ni1. subst A.
  destruct (send_datagram_miss_fresh dgram next_hop ni) as [Hframes Hw]; [done..|].
  pose proof (send_datagram_miss_waiting_dgrams dgram next_hop ni Hmiss) as Hq.
  assert (arp_table_ ni1 !! ipv4_numeric next_hop = None) as Hmiss1.
  { unfold ni1. by rewrite send_datagram_arp_table. }
  assert (waiting_arp_response_ip_addr_ ni1 !! ipv4_numeric next_hop
          = Some arp_response_default_ttl_) as Hpending1.
  { unfold ni1. rewrite Hw. apply lookup_insert_eq. }
  split_and!; [done..| | |].
  - intros before dgram' next_hop' after ->.
    apply Forall_app in Hsends as [Hbefore [Hhop' _]%Forall_cons].
    simpl in Hhop'. rewrite elapsed_app in Hwindow.
    destruct (run_while_pending (ipv4_numeric next_hop) before ni1
                arp_response_default_ttl_) as (Hmiss2 & Hpending2 & _ & _);
      [done|done|done|unfold arp_response_default_ttl_; lia|].
    rewrite <- Hhop' in Hmiss2, Hpending2. simpl. split.
    + by eapply send_datagram_miss_pending.
    + by apply send_datagram_miss_waiting_dgrams.
  - destruct (run_while_pending (ipv4_numeric next_hop) calls ni1
                arp_response_default_ttl_) as (_ & _ & -> & _); done.
  - destruct (run_while_pending (ipv4_numeric next_hop) calls ni1
                arp_response_default_ttl_) as (_ & _ & _ & ->); [done..|].
    unfold waiting_for at 1. unfold ni1. rewrite Hq, filter_app.
    rewrite filter_cons_True, filter_nil by done.
    by rewrite <- app_assoc.
Qed.

(** C3 (the drain only hits the cache).  For an ARP message that
    [handle_arp_frame] accepts, and hence for [recv_frame] on a frame of
    type ARP that passes the address filter, the result is that of the loop
    [resend_waiting] started in the state [ni2] in which the sender's entry
    is already in the ARP table, followed by erasing the sender's pending
    request: the entry is written strictly before the loop runs.  Every call
    of [send_datagram] that the loop makes from there finds its next hop in
    the ARP table.  With more fuel than there are waiting datagrams the loop
    and [handle_arp_frame] return: the loop leaves the pending requests and
    the ARP table as they were and takes the sender's datagrams off the
    waiting list without adding any, and [handle_arp_frame] adds no pending
    request either.  The order matters: started before the entry is
    written, with a datagram waiting for the sender, the loop ends for no
    fuel. *)
Theorem resend_waiting_hits_cache_and_ends fuel frame ni arp_msg :
  parse_arp (payload frame) = Some arp_msg →
  is_valid_arp_request ni arp_msg ∨ is_valid_arp_reply ni arp_msg →
  let src_ip_addr := sender_ip_address arp_msg in
  let ni1 :=
    if is_valid_arp_request ni arp_msg
    then push_frame (arp_reply_frame ni arp_msg) ni else ni in
  let ni2 :=
    with_arp_table
      (<[src_ip_addr :=
           {| eth_addr := sender_ethernet_address arp_msg;
              ttl := arp_entry_default_ttl_ |}]>
         (arp_table_ ni1)) ni1 in
  handle_arp_frame fuel frame ni
  = match resend_waiting fuel src_ip_addr 0 ni2 with
    | Some ni3 =>
        Some (with_waiting_ip
                (delete src_ip_addr (waiting_arp_response_ip_addr_ ni3)) ni3,
              None)
    | None => None
    end
  ∧ (addressed_to ni frame → type (header frame) = TYPE_ARP →
     recv_frame fuel frame ni = handle_arp_frame fuel frame ni)
  ∧ resend_waiting_traced fuel src_ip_addr 0 ni2
    = (resend_waiting fuel src_ip_addr 0 ni2, resend_calls fuel src_ip_addr 0 ni2)
  ∧ Forall takes_cache_hit_branch (resend_calls fuel src_ip_addr 0 ni2)
  ∧ ((length (waiting_arp_internet_datagrams_ ni) < fuel)%nat →
     ∃ ni3 ni',
       resend_waiting fuel src_ip_addr 0 ni2 = Some ni3
       ∧ handle_arp_frame fuel frame ni = Some (ni', None)
       ∧ length (resend_calls fuel src_ip_addr 0 ni2)
         = length (waiting_for src_ip_addr ni)
       ∧ waiting_arp_response_ip_addr_ ni3 = waiting_arp_response_ip_addr_ ni
       ∧ waiting_arp_internet_datagrams_ ni3 = waiting_not_for src_ip_addr ni
       ∧ waiting_arp_internet_datagrams_ ni3
           `sublist_of` waiting_arp_internet_datagrams_ ni
       ∧ arp_table_ ni3 = arp_table_ ni2
       ∧ waiting_arp_response_ip_addr_ ni'
         = delete src_ip_addr (waiting_arp_response_ip_addr_ ni)
       ∧ waiting_arp_internet_datagrams_ ni' = waiting_not_for src_ip_addr ni
       ∧ arp_table_ ni' = arp_table_ ni2)
  ∧ (arp_table_ ni !! src_ip_addr = None →
     Exists (λ pair, ipv4_numeric pair.1 = src_ip_addr)
       (waiting_arp_internet_datagrams_ ni) →
     ∀ fuel', resend_waiting fuel' src_ip_addr 0 ni1 = None).
Proof.
  intros Hparse Hvalid src_ip_addr ni1 ni2.
  assert (is_valid_arp_request ni arp_msg || is_valid_arp_reply ni arp_msg = true)
    as Hvalid' by (by apply Is_true_eq_true, orb_True).
  assert (arp_table_ ni2 !! src_ip_addr
          = Some {| eth_addr := sender_ethernet_address arp_msg;
                    ttl := arp_entry_default_ttl_ |})
    as Hhit by apply lookup_insert_eq.
  assert (waiting_arp_internet_datagrams_ ni2 = waiting_arp_internet_datagrams_ ni)
    as Hq by (unfold ni2, ni1; by destruct (is_valid_arp_request ni arp_msg)).
  assert (waiting_arp_response_ip_addr_ ni2 = waiting_arp_response_ip_addr_ ni)
    as Hw by (unfold ni2, ni1; by destruct (is_valid_arp_request ni arp_msg)).
  assert (handle_arp_frame fuel frame ni
          = match resend_waiting fuel src_ip_addr 0 ni2 with
            | Some ni3 =>
                Some (with_waiting_ip
                        (delete src_ip_addr (waiting_arp_response_ip_addr_ ni3)) ni3,
                      None)
            | None => None
            end) as Htie.
  { unfold handle_arp_frame. rewrite Hparse, Hvalid'. reflexivity. }
  split_and!.
  - exact Htie.
  - intros Hto Htype. rewrite recv_frame_addressed by done.
    pose proof TYPE_IPv4_ARP. rewrite decide_False by congruence.
    by rewrite decide_True.
  - apply resend_waiting_traced_eq.
  - by eapply resend_calls_hit.
  - intros Hfuel.
    assert (resend_waiting fuel src_ip_addr 0 ni2
            = Some (resent src_ip_addr
                      {| eth_addr := sender_ethernet_address arp_msg;
                         ttl := arp_entry_default_ttl_ |} 0 ni2)) as Hloop.
    { erewrite resend_waiting_fuel by exact Hhit.
      apply decide_True. rewrite Hq. lia. }
    eexists _, _. split_and!.
    + exact Hloop.
    + rewrite Htie, Hloop. reflexivity.
    + erewrite resend_calls_length; [|exact Hhit|rewrite Hq; lia].
      unfold waiting_for. by rewrite Hq, drop_0.
    + exact Hw.
    + unfold resent, waiting_not_for.
      cbn [waiting_arp_internet_datagrams_]. by rewrite Hq, drop_0.
    + unfold resent. cbn [waiting_arp_internet_datagrams_].
      rewrite Hq, drop_0. apply sublist_filter.
    + done.
    + cbn [waiting_arp_response_ip_addr_ with_waiting_ip resent]. by rewrite Hw.
    + unfold resent, waiting_not_for.
      cbn [waiting_arp_internet_datagrams_ with_waiting_ip]. by rewrite Hq, drop_0.
    + done.
  - intros Hmiss Hwaits fuel'. apply resend_waiting_miss_never_ends.
    + unfold ni1. by destruct (is_valid_arp_request ni arp_msg).
    + rewrite drop_0. unfold ni1. by destruct (is_valid_arp_request ni arp_msg).
Qed.

(** C4 (a cache hit bypasses discovery).  When the ARP table has an entry
    for the next hop, [send_datagram] pushes exactly one frame: it has type
    IPv4 (which is not the type of ARP frames), it is addressed to the
    Ethernet address of the entry and it carries the serialized datagram.
    The pending requests, the waiting datagrams and the ARP table stay as
    they are.  Nothing is asked of the remaining time to live of the entry.
    The call returns for every input: it either forwards in this way or,
    without an entry for the next hop, puts the datagram on the list of
    waiting datagrams. *)
Theorem send_datagram_cache_hit dgram next_hop ni entry :
  arp_table_ ni !! ipv4_numeric next_hop = Some entry →
  let ni' := send_datagram dgram next_hop ni in
  (∃ frame,
     _frames_out ni' = _frames_out ni ++ [frame]
     ∧ type (header frame) = TYPE_IPv4
     ∧ type (header frame) ≠ TYPE_ARP
     ∧ dst (header frame) = eth_addr entry
     ∧ payload frame = serialize_dgram dgram)
  ∧ waiting_arp_response_ip_addr_ ni' = waiting_arp_response_ip_addr_ ni
  ∧ waiting_arp_internet_datagrams_ ni' = waiting_arp_internet_datagrams_ ni
  ∧ arp_table_ ni' = arp_table_ ni
  ∧ (∀ dgram0 next_hop0 ni0,
       (∃ entry0,
          arp_table_ ni0 !! ipv4_numeric next_hop0 = Some entry0
          ∧ send_datagram dgram0 next_hop0 ni0
            = push_frame (ipv4_frame ni0 (eth_addr entry0) dgram0) ni0)
       ∨ (arp_table_ ni0 !! ipv4_numeric next_hop0 = None
          ∧ waiting_arp_internet_datagrams_ (send_datagram dgram0 next_hop0 ni0)
            = waiting_arp_internet_datagrams_ ni0 ++ [(next_hop0, dgram0)])).
Proof.
  intros Hhit ni'. unfold ni'. rewrite (send_datagram_hit _ _ _ entry) by done.
  split_and!; try done.
  - exists (ipv4_frame ni (eth_addr entry) dgram). split_and!; try done.
    simpl. apply TYPE_IPv4_ARP.
  - intros dgram0 next_hop0 ni0.
    destruct (arp_table_ ni0 !! ipv4_numeric next_hop0) as [entry0|] eqn:Hhop.
    + left. exists entry0. split; [done|]. by apply send_datagram_hit.
    + right. split; [done|]. by apply send_datagram_miss_waiting_dgrams.
Qed.

(** C5 (aging of the ARP table is exact).  [tick] erases an entry whose
    remaining time to live is at most the elapsed time, and keeps any
    other entry with the elapsed time taken off.  In particular the entry
    that [recv_frame] learns from an accepted ARP message is gone after a
    tick of 30000 ms, and after a tick of 29999 ms it is still there with
    1 ms left. *)
Theorem tick_ages_arp_table ms ni ip entry :
  arp_table_ ni !! ip = Some entry →
  (ttl entry ≤ ms → arp_table_ (tick ms ni) !! ip = None)
  ∧ (ms < ttl entry →
     arp_table_ (tick ms ni) !! ip
     = Some {| eth_addr := eth_addr entry; ttl := ttl entry - ms |})
  ∧ (∀ fuel frame ni0 arp_msg,
       addressed_to ni0 frame →
       type (header frame) = TYPE_ARP →
       parse_arp (payload frame) = Some arp_msg →
       is_valid_arp_request ni0 arp_msg ∨ is_valid_arp_reply ni0 arp_msg →
       (length (waiting_arp_internet_datagrams_ ni0) < fuel)%nat →
       ∃ ni1,
         recv_frame fuel frame ni0 = Some (ni1, None)
         ∧ arp_table_ ni1 !! sender_ip_address arp_msg
           = Some {| eth_addr := sender_ethernet_address arp_msg; ttl := 30000 |}
         ∧ arp_table_ (tick 30000 ni1) !! sender_ip_address arp_msg = None
         ∧ arp_table_ (tick 29999 ni1) !! sender_ip_address arp_msg
           = Some {| eth_addr := sender_ethernet_address arp_msg; ttl := 1 |}).
Proof.
  intros Hentry. split_and!.
  - intros Hle. rewrite tick_arp_table_lookup, Hentry. simpl.
    unfold aged_entry. by rewrite decide_True.
  - intros Hlt. rewrite tick_arp_table_lookup, Hentry. simpl.
    unfold aged_entry. by rewrite decide_False by lia.
  - intros fuel frame ni0 arp_msg Hto Htype Hparse Hvalid Hfuel.
    exists (learned ni0 arp_msg).
    assert (arp_table_ (learned ni0 arp_msg) !! sender_ip_address arp_msg
            = Some {| eth_addr := sender_ethernet_address arp_msg; ttl := 30000 |})
      as Hlearned by apply lookup_insert_eq.
    split_and!.
    + rewrite recv_frame_addressed by done.
      pose proof TYPE_IPv4_ARP.
      rewrite decide_False by congruence. rewrite decide_True by done.
      rewrite (handle_arp_frame_learn _ _ _ arp_msg); [by rewrite decide_True|done|].
      apply Is_true_eq_true, orb_True. exact Hvalid.
    + done.
    + rewrite tick_arp_table_lookup, Hlearned. done.
    + rewrite tick_arp_table_lookup, Hlearned. done.
Qed.

(** C6 (an expired request drops its datagrams).  When the timer of the
    pending request for [A] is at most the elapsed time, [tick] erases the
    request and every waiting datagram whose next hop is [A]; it only
    drops datagrams, and it pushes no frame.  If the ARP table still has no
    entry for [A], the next [send_datagram] to [A] pushes a new ARP request
    and starts a new timer of 5000 ms. *)
Theorem tick_expired_request_drops_datagrams ms ni (A t : N) :
  waiting_arp_response_ip_addr_ ni !! A = Some t →
  t ≤ ms →
  let ni' := tick ms ni in
  waiting_arp_response_ip_addr_ ni' !! A = None
  ∧ Forall (λ pair, ipv4_numeric pair.1 ≠ A) (waiting_arp_internet_datagrams_ ni')
  ∧ waiting_arp_internet_datagrams_ ni'
      `sublist_of` waiting_arp_internet_datagrams_ ni
  ∧ _frames_out ni' = _frames_out ni
  ∧ (∀ dgram next_hop,
       ipv4_numeric next_hop = A →
       arp_table_ ni' !! A = None →
       _frames_out (send_datagram dgram next_hop ni')
       = _frames_out ni' ++ [arp_request_frame ni' A]
       ∧ dst (header (arp_request_frame ni' A)) = ETHERNET_BROADCAST
       ∧ type (header (arp_request_frame ni' A)) = TYPE_ARP
       ∧ waiting_arp_response_ip_addr_ (send_datagram dgram next_hop ni') !! A
         = Some 5000
       ∧ waiting_arp_internet_datagrams_ (send_datagram dgram next_hop ni')
         = waiting_arp_internet_datagrams_ ni' ++ [(next_hop, dgram)]).
Proof.
  intros Hpending Hexpired ni'.
  assert (waiting_arp_response_ip_addr_ ni' !! A = None) as Hgone.
  { unfold ni'. rewrite tick_waiting_lookup, Hpending. simpl.
    unfold aged. by rewrite decide_True. }
  split_and!.
  - done.
  - unfold ni'. rewrite tick_waiting_dgrams. apply Forall_forall.
    intros pair [Hlive _]%list_elem_of_filter Hip.
    unfold not_expired in Hlive. rewrite Hip, Hpending in Hlive. lia.
  - unfold ni'. rewrite tick_waiting_dgrams. apply sublist_filter.
  - done.
  - intros dgram next_hop <- Hmiss.
    destruct (send_datagram_miss_fresh dgram next_hop ni') as [-> ->]; [done..|].
    split_and!; try done.
    + apply lookup_insert_eq.
    + by apply send_datagram_miss_waiting_dgrams.
Qed.

(** C7 (the ARP table and the pending requests are disjoint).  In a state
    reached from a new interface by calls of [send_datagram], [recv_frame],
    [tick] and [maybe_send], no address has both an entry in the ARP table
    and a pending request. *)
Theorem reachable_table_excludes_pending ni (ip : N) :
  reachable ni →
  ¬ (is_Some (arp_table_ ni !! ip)
     ∧ is_Some (waiting_arp_response_ip_addr_ ni !! ip)).
Proof.
  intros [Htable _]%reachable_invariants [Hcached [t Hpending]].
  rewrite (Htable ip Hcached) in Hpending. done.
Qed.

(** C8 (frames for others are ignored).  A frame whose destination is
    neither the Ethernet address of the interface nor the broadcast address
    makes [recv_frame] return no datagram and leaves the whole state as it
    was, whatever its type and payload. *)
Theorem recv_frame_ignores_other_destinations fuel frame ni :
  dst (header frame) ≠ ethernet_address_ ni →
  dst (header frame) ≠ ETHERNET_BROADCAST →
  recv_frame fuel frame ni = Some (ni, None).
Proof.
  intros Hown Hbroadcast. apply recv_frame_not_addressed.
  unfold addressed_to. tauto.
Qed.

(** C9 (malformed payloads are dropped).  A frame that passes the address
    filter, of type IPv4 with a payload that does not parse as a datagram
    or of type ARP with a payload that does not parse as an ARP message,
    makes [recv_frame] return no datagram and leaves the whole state as it
    was. *)
Theorem recv_frame_drops_malformed_payload fuel frame ni :
  addressed_to ni frame →
  (type (header frame) = TYPE_IPv4 ∧ parse_dgram (payload frame) = None)
  ∨ (type (header frame) = TYPE_ARP ∧ parse_arp (payload frame) = None) →
  recv_frame fuel frame ni = Some (ni, None).
Proof.
  intros Hto Hbad. rewrite recv_frame_addressed by done.
  pose proof TYPE_IPv4_ARP.
  destruct Hbad as [[Htype Hparse]|[Htype Hparse]].
  - rewrite decide_True by done. unfold handle_IPv4_frame. by rewrite Hparse.
  - rewrite decide_False by congruence. rewrite decide_True by done.
    by apply handle_arp_frame_malformed.
Qed.

(** C10 (waiting datagrams have a pending request).  In a state reached
    from a new interface by calls of the four public member functions, the
    next hop of every waiting datagram has a pending request, and hence no
    entry in the ARP table. *)
Theorem reachable_waiting_has_pending ni (pair : Address * InternetDatagram) :
  reachable ni →
  pair ∈ waiting_arp_internet_datagrams_ ni →
  is_Some (waiting_arp_response_ip_addr_ ni !! ipv4_numeric pair.1)
  ∧ arp_table_ ni !! ipv4_numeric pair.1 = None.
Proof.
  intros [Htable Hwaiting]%reachable_invariants Hin.
  pose proof (Hwaiting pair Hin) as [t Hpending]. split; [eauto|].
  destruct (arp_table_ ni !! ipv4_numeric pair.1) as [entry|] eqn:Hentry; [|done].
  rewrite Htable in Hpending by eauto. done.
Qed.

(** * Further properties of the member functions *)

Lemma NetworkInterface_eq (ni1 ni2 : NetworkInterface) :
  ethernet_address_ ni1 = ethernet_address_ ni2 →
  ip_address_ ni1 = ip_address_ ni2 →
  arp_table_ ni1 = arp_table_ ni2 →
  waiting_arp_response_ip_addr_ ni1 = waiting_arp_response_ip_addr_ ni2 →
  waiting_arp_internet_datagrams_ ni1 = waiting_arp_internet_datagrams_ ni2 →
  _frames_out ni1 = _frames_out ni2 →
  ni1 = ni2.
Proof. destruct ni1, ni2; simpl. by intros -> -> -> -> -> ->. Qed.

Lemma handle_arp_frame_no_datagram fuel frame ni ni' res :
  handle_arp_frame fuel frame ni = Some (ni', res) → res = None.
Proof.
  unfold handle_arp_frame. intros Hres.
  destruct (parse_arp (payload frame)) as [arp_msg|]; [|congruence].
  destruct (is_valid_arp_request ni arp_msg || is_valid_arp_reply ni arp_msg);
    [|congruence].
  destruct (resend_waiting _ _ _ _); congruence.
Qed.

Lemma valid_arp_true ni (arp_msg : ARPMessage EthernetAddress) :
  is_valid_arp_request ni arp_msg ∨ is_valid_arp_reply ni arp_msg →
  is_valid_arp_request ni arp_msg || is_valid_arp_reply ni arp_msg = true.
Proof. intros Hvalid. by apply Is_true_eq_true, orb_True. Qed.

(** What [recv_frame] does with an ARP message it accepts, with enough
    fuel. *)
Lemma recv_frame_learn fuel frame ni arp_msg :
  addressed_to ni frame →
  type (header frame) = TYPE_ARP →
  parse_arp (payload frame) = Some arp_msg →
  is_valid_arp_request ni arp_msg ∨ is_valid_arp_reply ni arp_msg →
  (length (waiting_arp_internet_datagrams_ ni) < fuel)%nat →
  recv_frame fuel frame ni = Some (learned ni arp_msg, None).
Proof.
  intros Hto Htype Hparse Hvalid Hfuel.
  rewrite recv_frame_addressed by done. pose proof TYPE_IPv4_ARP.
  rewrite decide_False by congruence. rewrite decide_True by done.
  rewrite (handle_arp_frame_learn _ _ _ arp_msg) by auto using valid_arp_true.
  by rewrite decide_True.
Qed.

Lemma recv_frame_delivers fuel frame ni (dgram : InternetDatagram) :
  addressed_to ni frame →
  type (header frame) = TYPE_IPv4 →
  parse_dgram (payload frame) = Some dgram →
  recv_frame fuel frame ni = Some (ni, Some dgram).
Proof.
  intros Hto Htype Hparse.
  rewrite recv_frame_addressed by done. rewrite decide_True by done.
  unfold handle_IPv4_frame. by rewrite Hparse.
Qed.

(** X1 (frames leave in the order they were pushed).  A caller that polls
    [maybe_send] [n] times gets the first [n] frames of the queue, oldest
    first, and leaves the others in the queue; nothing else of the state
    changes.  Once it has polled as often as there were frames, the next
    [maybe_send] returns no frame and changes nothing. *)
Theorem maybe_send_all_in_order (n : nat) ni :
  let polled := maybe_send_all n ni in
  polled.2 = take n (_frames_out ni)
  ∧ _frames_out polled.1 = drop n (_frames_out ni)
  ∧ arp_table_ polled.1 = arp_table_ ni
  ∧ waiting_arp_response_ip_addr_ polled.1 = waiting_arp_response_ip_addr_ ni
  ∧ waiting_arp_internet_datagrams_ polled.1 = waiting_arp_internet_datagrams_ ni
  ∧ ethernet_address_ polled.1 = ethernet_address_ ni
  ∧ ip_address_ polled.1 = ip_address_ ni
  ∧ ((length (_frames_out ni) ≤ n)%nat → maybe_send polled.1 = (polled.1, None)).
Proof.
  revert ni. induction n as [|n IH]; intros ni.
  - simpl. rewrite drop_0. split_and!; try done.
    intros Hlen. unfold maybe_send.
    destruct (_frames_out ni); [done|simpl in Hlen; lia].
  - destruct ni as [eth ip tbl w q [|frame frames]].
    + simpl. split_and!; done.
    + specialize (IH (mkNetworkInterface eth ip tbl w q frames)).
      simpl in IH |- *. destruct IH as (IH1 & IH2 & IH3 & IH4 & IH5 & IH6 & IH7 & IH8).
      split_and!; try done.
      * by rewrite IH1.
      * intros Hlen. apply IH8. lia.
Qed.

(** X2 (when a datagram is delivered).  [recv_frame] returns a datagram
    exactly when the frame passes the address filter, has type IPv4 and its
    payload parses, to that datagram; the state is then unchanged.  In
    particular no ARP frame ever delivers a datagram. *)
Theorem recv_frame_delivers_iff fuel frame ni ni' (dgram : InternetDatagram) :
  recv_frame fuel frame ni = Some (ni', Some dgram)
  ↔ addressed_to ni frame
    ∧ type (header frame) = TYPE_IPv4
    ∧ parse_dgram (payload frame) = Some dgram
    ∧ ni' = ni.
Proof.
  split.
  - intros Hrecv. destruct (decide (addressed_to ni frame)) as [Hto|Hno].
    + rewrite recv_frame_addressed in Hrecv by done.
      destruct (decide (type (header frame) = TYPE_IPv4)) as [Htype|_].
      { unfold handle_IPv4_frame in Hrecv. split_and!; congruence. }
      destruct (decide (type (header frame) = TYPE_ARP)); [|congruence].
      by apply handle_arp_frame_no_datagram in Hrecv.
    + rewrite recv_frame_not_addressed in Hrecv by done. congruence.
  - intros (Hto & Htype & Hparse & ->).
    by apply recv_frame_delivers.
Qed.

(** X3 (only an accepted ARP message changes the state).  Whenever
    [recv_frame] returns, either the state is the one it started from, or
    the frame passed the address filter, had type ARP and carried an ARP
    request for our IP address or an ARP reply for our Ethernet address;
    then no datagram is returned and the ARP table maps the sender's IP
    address to the sender's Ethernet address with 30000 ms to live.  So a
    request for another host, a reply to another host and every frame of an
    unknown type leave no trace. *)
Theorem recv_frame_changes_only_on_accepted_arp fuel frame ni ni' res :
  recv_frame fuel frame ni = Some (ni', res) →
  ni' = ni
  ∨ (addressed_to ni frame
     ∧ type (header frame) = TYPE_ARP
     ∧ res = None
     ∧ ∃ arp_msg,
         parse_arp (payload frame) = Some arp_msg
         ∧ (is_valid_arp_request ni arp_msg ∨ is_valid_arp_reply ni arp_msg)
         ∧ arp_table_ ni' !! sender_ip_address arp_msg
           = Some {| eth_addr := sender_ethernet_address arp_msg; ttl := 30000 |}).
Proof.
  intros Hrecv. destruct (decide (addressed_to ni frame)) as [Hto|Hno].
  - rewrite recv_frame_addressed in Hrecv by done.
    destruct (decide (type (header frame) = TYPE_IPv4)); [left; congruence|].
    destruct (decide (type (header frame) = TYPE_ARP)) as [Htype|]; [|left; congruence].
    pose proof (handle_arp_frame_no_datagram _ _ _ _ _ Hrecv) as ->.
    destruct (parse_arp (payload frame)) as [arp_msg|] eqn:Hparse.
    + destruct (is_valid_arp_request ni arp_msg || is_valid_arp_reply ni arp_msg)
        eqn:Hvalid.
      * rewrite (handle_arp_frame_learn _ _ _ arp_msg) in Hrecv by done.
        destruct (decide _); [|done]. right. split_and!; try done.
        exists arp_msg. split_and!; [done| |].
        -- apply orb_True. by rewrite Hvalid.
        -- assert (ni' = learned ni arp_msg) as -> by congruence.
           apply lookup_insert_eq.
      * rewrite (handle_arp_frame_ignore _ _ _ arp_msg) in Hrecv by done.
        left; congruence.
    + rewrite handle_arp_frame_malformed in Hrecv by done. left; congruence.
  - rewrite recv_frame_not_addressed in Hrecv by done. left; congruence.
Qed.

(** X4 (an ARP request for us is answered once).  When [recv_frame] accepts
    an ARP message, the frames of type ARP that it pushes are: for a request
    for our IP address, the one reply, addressed to the asker's Ethernet
    address and carrying our two addresses as sender and the asker's two
    addresses as target; for a message that is not such a request, none.
    The reply is pushed before the datagrams that waited for the asker. *)
Theorem recv_frame_answers_request fuel frame ni arp_msg :
  addressed_to ni frame →
  type (header frame) = TYPE_ARP →
  parse_arp (payload frame) = Some arp_msg →
  is_valid_arp_request ni arp_msg ∨ is_valid_arp_reply ni arp_msg →
  (length (waiting_arp_internet_datagrams_ ni) < fuel)%nat →
  let arp_reply :=
    {| header := {| dst := sender_ethernet_address arp_msg;
                    src := ethernet_address_ ni;
                    type := TYPE_ARP |};
       payload :=
         serialize_arp
           {| opcode := OPCODE_REPLY;
              sender_ethernet_address := ethernet_address_ ni;
              sender_ip_address := ipv4_numeric (ip_address_ ni);
              target_ethernet_address := sender_ethernet_address arp_msg;
              target_ip_address := sender_ip_address arp_msg |} |} in
  ∃ ni' resent_dgrams,
    recv_frame fuel frame ni = Some (ni', None)
    ∧ Forall (λ f, type (header f) = TYPE_IPv4) resent_dgrams
    ∧ _frames_out ni'
      = _frames_out ni
        ++ (if is_valid_arp_request ni arp_msg then [arp_reply] else [])
        ++ resent_dgrams.
Proof.
  intros Hto Htype Hparse Hvalid Hfuel arp_reply.
  exists (learned ni arp_msg), ((λ pair, ipv4_frame ni (sender_ethernet_address arp_msg) pair.2)
      <$> waiting_for (sender_ip_address arp_msg) ni).
  split_and!.
  - by apply recv_frame_learn.
  - by apply Forall_fmap, Forall_true.
  - done.
Qed.

(** X13 (recv_frame ends on every frame).  The loop of [handle_arp_frame]
    needs one round more than there are waiting datagrams: with that much
    fuel [recv_frame] returns for every frame and every state, and any
    larger fuel gives the same result. *)
Theorem recv_frame_terminates (fuel : nat) frame ni :
  (length (waiting_arp_internet_datagrams_ ni) < fuel)%nat →
  is_Some (recv_frame fuel frame ni)
  ∧ recv_frame fuel frame ni
    = recv_frame (S (length (waiting_arp_internet_datagrams_ ni))) frame ni.
Proof.
  intros Hfuel. split; [by apply recv_frame_returns|].
  destruct (decide (addressed_to ni frame)) as [Hto|Hno].
  - rewrite !recv_frame_addressed by done.
    destruct (decide (type (header frame) = TYPE_IPv4)); [done|].
    destruct (decide (type (header frame) = TYPE_ARP)); [|done].
    destruct (parse_arp (payload frame)) as [arp_msg|] eqn:Hparse.
    + destruct (is_valid_arp_request ni arp_msg || is_valid_arp_reply ni arp_msg)
        eqn:Hvalid.
      * rewrite !(handle_arp_frame_learn _ _ _ arp_msg) by done.
        rewrite !decide_True by lia. done.
      * by rewrite !(handle_arp_frame_ignore _ _ _ arp_msg).
    + by rewrite !handle_arp_frame_malformed.
  - by rewrite !recv_frame_not_addressed.
Qed.

(** ** Timers *)

Lemma step_timers_in_range ni ni' :
  step ni ni' → timers_in_range ni → timers_in_range ni'.
Proof.
  unfold timers_in_range, arp_entry_default_ttl_, arp_response_default_ttl_.
  intros Hstep [Htable Hpending].
  destruct Hstep as [dgram next_hop ni|fuel frame ni ni' res Hrecv|ms ni|ni].
  - unfold send_datagram.
    destruct (arp_table_ ni !! ipv4_numeric next_hop) as [entry|]; [by split|].
    destruct (waiting_arp_response_ip_addr_ ni !! ipv4_numeric next_hop)
      as [t|]; simpl; (split; [done|]); [done|].
    intros ip t [[_ <-]|[_ Hold]]%lookup_insert_Some; [|eauto].
    unfold arp_response_default_ttl_. lia.
  - apply recv_frame_cases in Hrecv as [->|[arp_msg ->]]; [by split|].
    simpl; split.
    + intros ip entry [[_ <-]|[_ Hold]]%lookup_insert_Some; [|eauto].
      simpl. unfold arp_entry_default_ttl_. lia.
    + intros ip t [_ Hold]%lookup_delete_Some. eauto.
  - split.
    + intros ip entry. rewrite tick_arp_table_lookup.
      destruct (arp_table_ ni !! ip) as [old|] eqn:Hold; [|done].
      simpl. unfold aged_entry. destruct (decide _); [done|].
      intros [= <-]. simpl. destruct (Htable ip old Hold). lia.
    + intros ip t. rewrite tick_waiting_lookup.
      destruct (waiting_arp_response_ip_addr_ ni !! ip) as [old|] eqn:Hold; [|done].
      simpl. unfold aged. destruct (decide _); [done|].
      intros [= <-]. destruct (Hpending ip old Hold). lia.
  - unfold maybe_send. destruct (_frames_out ni); by split.
Qed.

Lemma reachable_timers ni : reachable ni → timers_in_range ni.
Proof.
  intros (ethernet_address & ip_address & Hrun). revert ni Hrun.
  apply (rtc_ind_r timers_in_range); [|by eauto using step_timers_in_range].
  split; intros ip x Hx; simpl in Hx; by rewrite lookup_empty in Hx.
Qed.

(** X7 (timers stay in range).  In every state reached from a new
    interface by the four public member functions, an entry of the ARP
    table has between 1 and 30000 ms to live and a pending request between
    1 and 5000 ms: no entry sits in a map with an expired timer, and no
    subtraction in [tick] wraps around. *)
Theorem reachable_timers_in_range ni :
  reachable ni →
  (∀ ip entry, arp_table_ ni !! ip = Some entry → 0 < ttl entry ≤ 30000)
  ∧ (∀ ip t, waiting_arp_response_ip_addr_ ni !! ip = Some t → 0 < t ≤ 5000).
Proof. intros Hreach. exact (reachable_timers ni Hreach). Qed.

(** X8 (no time, no change).  On a reachable state [tick 0] changes
    nothing. *)
Theorem reachable_tick_0 ni : reachable ni → tick 0 ni = ni.
Proof.
  intros [Htable Hpending]%reachable_timers.
  apply NetworkInterface_eq; try done.
  - apply map_eq. intros ip. rewrite tick_arp_table_lookup.
    destruct (arp_table_ ni !! ip) as [entry|] eqn:Hentry; [|done].
    simpl. unfold aged_entry. destruct (Htable ip entry Hentry).
    rewrite decide_False by lia. rewrite N.sub_0_r. by destruct entry.
  - apply map_eq. intros ip. rewrite tick_waiting_lookup.
    destruct (waiting_arp_response_ip_addr_ ni !! ip) as [t|] eqn:Ht; [|done].
    simpl. unfold aged. destruct (Hpending ip t Ht).
    rewrite decide_False by lia. by rewrite N.sub_0_r.
  - rewrite tick_waiting_dgrams. apply filter_all, Forall_forall.
    intros pair _. unfold not_expired.
    destruct (waiting_arp_response_ip_addr_ ni !! ipv4_numeric pair.1)
      as [t|] eqn:Ht; [|done].
    by destruct (Hpending _ t Ht).
Qed.

(** X9 (time adds up).  Two calls of [tick] in a row leave the state that
    one call with the sum of the two times leaves, in every state (for
    times whose sum a [size_t] holds). *)
Theorem tick_tick (ms1 ms2 : N) ni :
  tick ms2 (tick ms1 ni) = tick (ms1 + ms2) ni.
Proof.
  apply NetworkInterface_eq; try done.
  - apply map_eq. intros ip. rewrite !tick_arp_table_lookup.
    destruct (arp_table_ ni !! ip) as [entry|]; [|done].
    simpl. unfold aged_entry.
    destruct (decide (ttl entry ≤ ms1)); simpl.
    + by rewrite decide_True by lia.
    + destruct (decide (ttl entry - ms1 ≤ ms2)).
      * by rewrite decide_True by lia.
      * rewrite decide_False by lia. do 2 f_equal. lia.
  - apply map_eq. intros ip. rewrite !tick_waiting_lookup.
    destruct (waiting_arp_response_ip_addr_ ni !! ip) as [t|]; [|done].
    simpl. unfold aged.
    destruct (decide (t ≤ ms1)); simpl.
    + by rewrite decide_True by lia.
    + destruct (decide (t - ms1 ≤ ms2)).
      * by rewrite decide_True by lia.
      * rewrite decide_False by lia. f_equal. lia.
  - rewrite !tick_waiting_dgrams, list_filter_filter.
    apply list_filter_iff. intros pair. unfold not_expired.
    rewrite tick_waiting_lookup.
    destruct (waiting_arp_response_ip_addr_ ni !! ipv4_numeric pair.1) as [t|];
      [|done].
    simpl. unfold aged. destruct (decide (t ≤ ms1)); [lia|lia].
Qed.

(** ** The frames an interface sends *)

Lemma step_sent_by ni ni' :
  step ni ni' →
  Forall (sent_by (ethernet_address_ ni)) (_frames_out ni) →
  ethernet_address_ ni' = ethernet_address_ ni
  ∧ ip_address_ ni' = ip_address_ ni
  ∧ Forall (sent_by (ethernet_address_ ni)) (_frames_out ni').
Proof.
  intros Hstep Hframes.
  destruct Hstep as [dgram next_hop ni|fuel frame ni ni' res Hrecv|ms ni|ni].
  - unfold send_datagram.
    destruct (arp_table_ ni !! ipv4_numeric next_hop) as [entry|].
    + split_and!; try done. simpl. apply Forall_app. split; [done|].
      apply Forall_singleton. split; [done|by left].
    + destruct (waiting_arp_response_ip_addr_ ni !! ipv4_numeric next_hop);
        simpl; (split_and!; [done..|]); [done|].
      apply Forall_app. split; [done|].
      apply Forall_singleton. split; [done|by right].
  - apply recv_frame_cases in Hrecv as [->|[arp_msg ->]]; [by split_and!|].
    split_and!; try done. simpl. apply Forall_app. split; [done|].
    unfold frames_on_learning. apply Forall_app. split.
    + destruct (is_valid_arp_request ni arp_msg); [|constructor].
      apply Forall_singleton. split; [done|by right].
    + apply Forall_fmap, Forall_true. intros pair. split; [done|by left].
  - by split_and!.
  - unfold maybe_send. destruct (_frames_out ni) as [|frame frames] eqn:Hq.
    + simpl. rewrite Hq. by split_and!.
    + simpl. split_and!; try done. by apply Forall_cons in Hframes as [_ ?].
Qed.

(** X10 (the interface speaks for itself only).  However a new interface
    is driven through the four public member functions, it keeps the
    Ethernet and IP address it was constructed with, and every frame in its
    queue has its Ethernet address as source and type IPv4 or ARP: it never
    forwards a frame it received, and never forges a sender. *)
Theorem reachable_frames_sent_by_self ethernet_address ip_address ni :
  rtc step (NetworkInterface_new ethernet_address ip_address) ni →
  ethernet_address_ ni = ethernet_address
  ∧ ip_address_ ni = ip_address
  ∧ Forall (λ frame,
              src (header frame) = ethernet_address
              ∧ (type (header frame) = TYPE_IPv4 ∨ type (header frame) = TYPE_ARP))
      (_frames_out ni).
Proof.
  revert ni.
  apply (rtc_ind_r (λ ni,
           ethernet_address_ ni = ethernet_address
           ∧ ip_address_ ni = ip_address
           ∧ Forall (sent_by ethernet_address) (_frames_out ni))).
  - split_and!; [done..|]. constructor.
  - intros ni ni' _ Hstep (Heth & Hip & Hframes).
    rewrite <- Heth in Hframes.
    destruct (step_sent_by ni ni' Hstep Hframes) as (-> & -> & Hframes').
    rewrite Heth in Hframes'. done.
Qed.

(** ** Two interfaces on one link *)

(** X6 (a forwarded datagram arrives).  When the ARP table of [a] maps the
    next hop to the Ethernet address of [b], the frame that [send_datagram]
    pushes on [a] makes [recv_frame] on [b] return the datagram, provided
    that the datagram survives serializing and parsing; [b] is left
    unchanged.  An interface with another Ethernet address drops the frame
    (unless the cached address is the broadcast address). *)
Theorem send_datagram_hit_reaches_next_hop
    (fuel : nat) dgram next_hop (a b : NetworkInterface) entry :
  arp_table_ a !! ipv4_numeric next_hop = Some entry →
  ethernet_address_ b = eth_addr entry →
  parse_dgram (serialize_dgram dgram) = Some dgram →
  ∃ frame,
    _frames_out (send_datagram dgram next_hop a) = _frames_out a ++ [frame]
    ∧ recv_frame fuel frame b = Some (b, Some dgram)
    ∧ ∀ c : NetworkInterface,
        ethernet_address_ c ≠ eth_addr entry →
        eth_addr entry ≠ ETHERNET_BROADCAST →
        recv_frame fuel frame c = Some (c, None).
Proof.
  intros Hhit Hb Hcodec. exists (ipv4_frame a (eth_addr entry) dgram).
  split_and!.
  - by rewrite (send_datagram_hit _ _ _ entry).
  - apply recv_frame_delivers; [by left|done|done].
  - intros c Hc Hbroadcast. apply recv_frame_not_addressed.
    unfold addressed_to; simpl. intros [?|?]; congruence.
Qed.

(** X5 (address resolution between two interfaces).  [a] has neither an
    ARP entry nor a pending request for the IP address of [b] and is asked to
    send a datagram there.  It pushes an ARP request; [b], given that
    frame, pushes as its next frame an ARP reply and learns the addresses
    of [a]; [a], given the reply, learns the addresses of [b] and pushes as
    its last frame the datagram, addressed to [b]; and [b], given this
    frame, returns the datagram.  The codecs are taken to parse what they
    serialized. *)
Theorem arp_handshake_delivers dgram next_hop (a b : NetworkInterface) :
  ipv4_numeric next_hop = ipv4_numeric (ip_address_ b) →
  arp_table_ a !! ipv4_numeric next_hop = None →
  waiting_arp_response_ip_addr_ a !! ipv4_numeric next_hop = None →
  (∀ arp_msg, parse_arp (serialize_arp arp_msg) = Some arp_msg) →
  parse_dgram (serialize_dgram dgram) = Some dgram →
  let a1 := send_datagram dgram next_hop a in
  let request := arp_request_frame a (ipv4_numeric next_hop) in
  let reply :=
    arp_reply_frame b
      (construct_arp_message a OPCODE_REQUEST EthernetAddress_empty
         (ipv4_numeric next_hop)) in
  let carried := ipv4_frame a (ethernet_address_ b) dgram in
  ∃ b1 b_resent a2 a_before,
    _frames_out a1 = _frames_out a ++ [request]
    ∧ recv_frame (S (length (waiting_arp_internet_datagrams_ b))) request b
      = Some (b1, None)
    ∧ _frames_out b1 = _frames_out b ++ reply :: b_resent
    ∧ arp_table_ b1 !! ipv4_numeric (ip_address_ a)
      = Some {| eth_addr := ethernet_address_ a; ttl := 30000 |}
    ∧ recv_frame (S (length (waiting_arp_internet_datagrams_ a1))) reply a1
      = Some (a2, None)
    ∧ arp_table_ a2 !! ipv4_numeric (ip_address_ b)
      = Some {| eth_addr := ethernet_address_ b; ttl := 30000 |}
    ∧ _frames_out a2 = a_before ++ [carried]
    ∧ ∀ fuel, recv_frame fuel carried b1 = Some (b1, Some dgram).
Proof.
  intros Hhop Hmiss Hfresh Harp Hdgram a1 request reply carried.
  destruct (send_datagram_miss_fresh dgram next_hop a) as [Hframes _]; [done..|].
  pose proof (send_datagram_miss_waiting_dgrams dgram next_hop a Hmiss) as Hq.
  set (request_msg := construct_arp_message a OPCODE_REQUEST EthernetAddress_empty
                        (ipv4_numeric next_hop)).
  assert (is_valid_arp_request b request_msg = true) as Hrequest.
  { unfold is_valid_arp_request. simpl. by rewrite !bool_decide_eq_true_2. }
  set (reply_msg := construct_arp_message b OPCODE_REPLY
                      (sender_ethernet_address request_msg)
                      (sender_ip_address request_msg)).
  assert (ethernet_address_ a1 = ethernet_address_ a) as Heth.
  { unfold a1, send_datagram. rewrite Hmiss, Hfresh. done. }
  assert (is_valid_arp_reply a1 reply_msg = true) as Hreply.
  { unfold is_valid_arp_reply. simpl. rewrite Heth.
    by rewrite !bool_decide_eq_true_2. }
  exists (learned b request_msg),
    ((λ pair, ipv4_frame b (sender_ethernet_address request_msg) pair.2)
       <$> waiting_for (sender_ip_address request_msg) b),
    (learned a1 reply_msg),
    (_frames_out a1
     ++ (if is_valid_arp_request a1 reply_msg
         then [arp_reply_frame a1 reply_msg] else [])
     ++ ((λ pair, ipv4_frame a (ethernet_address_ b) pair.2)
         <$> waiting_for (ipv4_numeric (ip_address_ b)) a)).
  split_and!.
  - done.
  - apply recv_frame_learn; [by right|done|apply Harp| |lia].
    left. by rewrite Hrequest.
  - simpl. unfold frames_on_learning. by rewrite Hrequest.
  - apply lookup_insert_eq.
  - apply recv_frame_learn; [left; by rewrite Heth|done|apply Harp| |lia].
    right. by rewrite Hreply.
  - apply lookup_insert_eq.
  - unfold learned, frames_on_learning. cbn [_frames_out].
    rewrite <- !app_assoc. do 2 f_equal.
    unfold waiting_for, a1. rewrite Hq, filter_app.
    rewrite filter_cons_True, filter_nil by exact Hhop.
    rewrite fmap_app. simpl. unfold ipv4_frame, construct_ethernet_frame.
    fold a1. by rewrite Heth.
  - intros fuel. apply recv_frame_delivers; [by left|done|done].
Qed.

(** ** Learning, expiry and asking again *)

(** X11 (a learned address serves for 30000 ms).  After [recv_frame]
    accepted an ARP message, whether or not its sender was in the ARP table
    or had a pending request before, a datagram sent to the sender's IP
    address within less than 30000 ms goes out at once, to the sender's
    Ethernet address.  From 30000 ms on the entry is gone: the send pushes
    a new ARP request and the datagram waits. *)
Theorem recv_frame_learned_address_lifetime
    fuel frame ni arp_msg (next_hop : Address) :
  addressed_to ni frame →
  type (header frame) = TYPE_ARP →
  parse_arp (payload frame) = Some arp_msg →
  is_valid_arp_request ni arp_msg ∨ is_valid_arp_reply ni arp_msg →
  (length (waiting_arp_internet_datagrams_ ni) < fuel)%nat →
  ipv4_numeric next_hop = sender_ip_address arp_msg →
  ∃ ni1,
    recv_frame fuel frame ni = Some (ni1, None)
    ∧ (∀ ms dgram, ms < 30000 →
         send_datagram dgram next_hop (tick ms ni1)
         = push_frame (ipv4_frame ni (sender_ethernet_address arp_msg) dgram)
             (tick ms ni1))
    ∧ (∀ ms dgram, 30000 ≤ ms →
         _frames_out (send_datagram dgram next_hop (tick ms ni1))
         = _frames_out ni1 ++ [arp_request_frame ni (sender_ip_address arp_msg)]
         ∧ waiting_arp_internet_datagrams_ (send_datagram dgram next_hop (tick ms ni1))
           = waiting_arp_internet_datagrams_ (tick ms ni1) ++ [(next_hop, dgram)]).
Proof.
  intros Hto Htype Hparse Hvalid Hfuel Hhop.
  exists (learned ni arp_msg). split; [by apply recv_frame_learn|].
  assert (arp_table_ (learned ni arp_msg) !! ipv4_numeric next_hop
          = Some {| eth_addr := sender_ethernet_address arp_msg;
                    ttl := arp_entry_default_ttl_ |}) as Hlearned.
  { rewrite Hhop. apply lookup_insert_eq. }
  split.
  - intros ms dgram Hms.
    rewrite (send_datagram_hit _ _ _
               {| eth_addr := sender_ethernet_address arp_msg;
                  ttl := arp_entry_default_ttl_ - ms |}); [reflexivity|].
    rewrite tick_arp_table_lookup, Hlearned. simpl. unfold aged_entry. simpl.
    unfold arp_entry_default_ttl_. by rewrite decide_False by lia.
  - intros ms dgram Hms.
    assert (arp_table_ (tick ms (learned ni arp_msg)) !! ipv4_numeric next_hop = None)
      as Hgone.
    { rewrite tick_arp_table_lookup, Hlearned. simpl. unfold aged_entry. simpl.
      unfold arp_entry_default_ttl_. by rewrite decide_True by lia. }
    assert (waiting_arp_response_ip_addr_ (tick ms (learned ni arp_msg))
              !! ipv4_numeric next_hop = None) as Hfresh.
    { rewrite tick_waiting_lookup. simpl. by rewrite Hhop, lookup_delete_eq. }
    destruct (send_datagram_miss_fresh dgram next_hop _ Hgone Hfresh) as [-> _].
    split; [by rewrite Hhop|].
    by apply send_datagram_miss_waiting_dgrams.
Qed.

Lemma run_addresses calls ni :
  ethernet_address_ (run calls ni) = ethernet_address_ ni
  ∧ ip_address_ (run calls ni) = ip_address_ ni.
Proof.
  revert ni. induction calls as [|[dgram next_hop|ms] calls IH]; intros ni; [done| |].
  - change (run (call_send_datagram dgram next_hop :: calls) ni)
      with (run calls (send_datagram dgram next_hop ni)).
    destruct (IH (send_datagram dgram next_hop ni)) as [-> ->].
    unfold send_datagram. destruct (arp_table_ ni !! _); [done|].
    by destruct (waiting_arp_response_ip_addr_ ni !! _).
  - change (run (call_tick ms :: calls) ni) with (run calls (tick ms ni)).
    by destruct (IH (tick ms ni)) as [-> ->].
Qed.

(** X12 (the 5000 ms run from the first request).  Sending more datagrams
    to an address whose request is pending does not restart its timer.
    When the ticks since the first send add up to 5000 ms or more, however
    many sends to the address came in between, the request is erased
    together with every datagram that waited for the address, and the next
    send to it pushes the same ARP request as the first one did. *)
Theorem send_datagram_window_not_extended
    (A ms : N) dgram next_hop (calls : list call) ni :
  ipv4_numeric next_hop = A →
  Forall (sends_to A) calls →
  arp_table_ ni !! A = None →
  waiting_arp_response_ip_addr_ ni !! A = None →
  elapsed calls < 5000 →
  5000 ≤ elapsed calls + ms →
  let ni1 := run calls (send_datagram dgram next_hop ni) in
  waiting_arp_response_ip_addr_ ni1 !! A = Some (5000 - elapsed calls)
  ∧ waiting_arp_response_ip_addr_ (tick ms ni1) !! A = None
  ∧ Forall (λ pair, ipv4_numeric pair.1 ≠ A)
      (waiting_arp_internet_datagrams_ (tick ms ni1))
  ∧ ∀ dgram' next_hop',
      ipv4_numeric next_hop' = A →
      _frames_out (send_datagram dgram' next_hop' (tick ms ni1))
      = _frames_out ni ++ [arp_request_frame ni A; arp_request_frame ni A].
Proof.
  intros Hhop Hsends Hmiss Hfresh Hwindow Hover ni1. subst A.
  destruct (send_datagram_miss_fresh dgram next_hop ni) as [Hframes Hw]; [done..|].
  destruct (run_while_pending (ipv4_numeric next_hop) calls
              (send_datagram dgram next_hop ni) arp_response_default_ttl_)
    as (Hmiss1 & Hpending1 & Hframes1 & _).
  { done. }
  { by rewrite send_datagram_arp_table. }
  { rewrite Hw. apply lookup_insert_eq. }
  { done. }
  fold ni1 in Hmiss1, Hpending1, Hframes1.
  assert (waiting_arp_response_ip_addr_ (tick ms ni1) !! ipv4_numeric next_hop = None)
    as Hgone.
  { rewrite tick_waiting_lookup, Hpending1. simpl. unfold aged.
    unfold arp_response_default_ttl_. by rewrite decide_True by lia. }
  split_and!.
  - done.
  - done.
  - rewrite tick_waiting_dgrams. apply Forall_forall.
    intros pair [Hlive _]%list_elem_of_filter Hip.
    unfold not_expired in Hlive. rewrite Hip, Hpending1 in Hlive.
    unfold arp_response_default_ttl_ in Hlive. lia.
  - intros dgram' next_hop' Hhop'.
    destruct (send_datagram_miss_fresh dgram' next_hop' (tick ms ni1)) as [-> _].
    { by rewrite Hhop', tick_arp_table_lookup, Hmiss1. }
    { by rewrite Hhop'. }
    rewrite tick_frames_out, Hframes1, Hframes, <- app_assoc. simpl.
    do 3 f_equal. rewrite Hhop'.
    unfold arp_request_frame, construct_ethernet_frame, construct_arp_message.
    cbn [ethernet_address_ ip_address_ tick with_waiting_dgrams with_waiting_ip
         with_arp_table].
    unfold ni1. destruct (run_addresses calls (send_datagram dgram next_hop ni))
      as [-> ->].
    unfold send_datagram. by rewrite Hmiss, Hfresh.
Qed.

End Properties.

(** * The scenario of the specification

    The theorems above at the states and frames of [Toy]. *)

Section Scenario.
#[local] Existing Instance Toy.stack.
Local Open Scope N_scope.

(** The loop of [handle_arp_frame] needs its fuel: one waiting datagram
    takes two rounds, the second one to see the end of the list. *)
Example recv_frame_reply_out_of_fuel :
  recv_frame 1 Toy.reply Toy.asked = None.
Proof. vm_compute. reflexivity. Qed.

Example recv_frame_reply_frames :
  (λ res, _frames_out res.1) <$> recv_frame 2 Toy.reply Toy.asked
  = Some [arp_request_frame Toy.me 0x02020202;
          ipv4_frame Toy.me Toy.peer_eth Toy.dgram7].
Proof. vm_compute. reflexivity. Qed.

Example tick_before_expiry :
  map_to_list (waiting_arp_response_ip_addr_ (tick 4999 Toy.asked))
  = [(0x02020202, 1)]
  ∧ waiting_arp_internet_datagrams_ (tick 4999 Toy.asked)
    = [(Toy.peer_ip, Toy.dgram7)].
Proof. vm_compute. split; reflexivity. Qed.

Example maybe_send_front :
  (maybe_send Toy.asked).2 = Some (arp_request_frame Toy.me 0x02020202)
  ∧ _frames_out (maybe_send Toy.asked).1 = [].
Proof. vm_compute. split; reflexivity. Qed.

Lemma recv_frame_resolution_drains_queue_witness :
  ∃ ni' enqueued,
    recv_frame 2 Toy.reply Toy.asked = Some (ni', None)
    ∧ _frames_out ni' = _frames_out Toy.asked ++ enqueued
    ∧ filter (λ f, type (header f) = TYPE_IPv4) enqueued
      = (λ pair, ipv4_frame Toy.asked Toy.peer_eth pair.2) <$> waiting_for 0x02020202 Toy.asked
    ∧ length (filter (λ f, type (header f) = TYPE_IPv4) enqueued) = 1%nat
    ∧ Forall (λ f, dst (header f) = Toy.peer_eth)
        (filter (λ f, type (header f) = TYPE_IPv4) enqueued)
    ∧ waiting_arp_response_ip_addr_ ni'
      = delete 0x02020202 (waiting_arp_response_ip_addr_ Toy.asked)
    ∧ waiting_arp_internet_datagrams_ ni' = waiting_not_for 0x02020202 Toy.asked
    ∧ waiting_for 0x02020202 ni' = []
    ∧ arp_table_ ni'
      = <[0x02020202 := {| eth_addr := Toy.peer_eth; ttl := 30000 |}]> (arp_table_ Toy.asked).
Proof.
  apply (recv_frame_resolution_drains_queue
           2 Toy.reply Toy.asked Toy.reply_msg 0x02020202 1).
  - left. reflexivity.
  - reflexivity.
  - reflexivity.
  - right. vm_compute. exact I.
  - reflexivity.
  - vm_compute. reflexivity.
  - vm_compute. reflexivity.
  - vm_compute. lia.
Defined.

Lemma send_datagram_one_request_per_window_witness :
  _frames_out (run Toy.more_sends Toy.asked)
  = [arp_request_frame Toy.me 0x02020202]
  ∧ waiting_for 0x02020202 (run Toy.more_sends Toy.asked)
    = [(Toy.peer_ip, Toy.dgram7); (Toy.peer_ip, Toy.dgram8); (Toy.peer_ip, Toy.dgram9)].
Proof.
  destruct (send_datagram_one_request_per_window
              0x02020202 Toy.dgram7 Toy.peer_ip Toy.more_sends Toy.me)
    as (_ & _ & _ & _ & _ & Hframes & Hwaiting).
  - reflexivity.
  - repeat constructor.
  - vm_compute. reflexivity.
  - vm_compute. reflexivity.
  - vm_compute. reflexivity.
  - split; [exact Hframes|exact Hwaiting].
Defined.

Lemma resend_waiting_hits_cache_and_ends_witness :
  Forall takes_cache_hit_branch
    (resend_calls 2 0x02020202 0
       (with_arp_table
          (<[0x02020202 := {| eth_addr := Toy.peer_eth; ttl := arp_entry_default_ttl_ |}]>
             (arp_table_ Toy.asked)) Toy.asked))
  ∧ ∃ ni3 ni',
      resend_waiting 2 0x02020202 0
        (with_arp_table
           (<[0x02020202 := {| eth_addr := Toy.peer_eth; ttl := arp_entry_default_ttl_ |}]>
              (arp_table_ Toy.asked)) Toy.asked) = Some ni3
      ∧ handle_arp_frame 2 Toy.reply Toy.asked = Some (ni', None)
      ∧ waiting_arp_response_ip_addr_ ni3 = waiting_arp_response_ip_addr_ Toy.asked
      ∧ waiting_arp_internet_datagrams_ ni3 `sublist_of`
          waiting_arp_internet_datagrams_ Toy.asked
      ∧ waiting_arp_response_ip_addr_ ni'
        = delete 0x02020202 (waiting_arp_response_ip_addr_ Toy.asked).
Proof.
  destruct (resend_waiting_hits_cache_and_ends 2 Toy.reply Toy.asked Toy.reply_msg)
    as (_ & _ & _ & Hhits & Hends & _).
  - reflexivity.
  - right. vm_compute. exact I.
  - split; [exact Hhits|].
    destruct Hends as (ni3 & ni' & Hloop & Hhandle & _ & Hpending & _ & Hsub & _ & Hpending' & _).
    + vm_compute. lia.
    + exists ni3, ni'.
      split_and!; [exact Hloop|exact Hhandle|exact Hpending|exact Hsub|exact Hpending'].
Defined.

(** Without the entry in the ARP table the loop runs out of any fuel. *)
Example resend_waiting_before_entry :
  resend_waiting 1000 0x02020202 0 Toy.asked = None.
Proof. vm_compute. reflexivity. Qed.

Lemma send_datagram_cache_hit_witness :
  ∃ frame,
    _frames_out (send_datagram Toy.dgram7 Toy.peer_ip Toy.known)
    = _frames_out Toy.known ++ [frame]
    ∧ type (header frame) = TYPE_IPv4
    ∧ type (header frame) ≠ TYPE_ARP
    ∧ dst (header frame) = Toy.peer_eth
    ∧ payload frame = serialize_dgram Toy.dgram7.
Proof.
  destruct (send_datagram_cache_hit Toy.dgram7 Toy.peer_ip Toy.known
              {| eth_addr := Toy.peer_eth; ttl := 30000 |}) as [Hframe _].
  - vm_compute. reflexivity.
  - exact Hframe.
Defined.

Lemma tick_ages_arp_table_witness :
  arp_table_ (tick 29999 Toy.known) !! 0x02020202
  = Some {| eth_addr := Toy.peer_eth; ttl := 1 |}
  ∧ arp_table_ (tick 30000 Toy.known) !! 0x02020202 = None.
Proof.
  split.
  - destruct (tick_ages_arp_table 29999 Toy.known 0x02020202
                {| eth_addr := Toy.peer_eth; ttl := 30000 |}) as (_ & Hkept & _).
    + vm_compute. reflexivity.
    + apply Hkept. vm_compute. reflexivity.
  - destruct (tick_ages_arp_table 30000 Toy.known 0x02020202
                {| eth_addr := Toy.peer_eth; ttl := 30000 |}) as (Hgone & _ & _).
    + vm_compute. reflexivity.
    + apply Hgone. vm_compute. discriminate.
Defined.

Lemma tick_expired_request_drops_datagrams_witness :
  waiting_arp_response_ip_addr_ (tick 5000 Toy.asked) !! 0x02020202 = None
  ∧ Forall (λ pair, ipv4_numeric pair.1 ≠ 0x02020202)
      (waiting_arp_internet_datagrams_ (tick 5000 Toy.asked))
  ∧ _frames_out (send_datagram Toy.dgram8 Toy.peer_ip (tick 5000 Toy.asked))
    = _frames_out (tick 5000 Toy.asked)
      ++ [arp_request_frame (tick 5000 Toy.asked) 0x02020202].
Proof.
  destruct (tick_expired_request_drops_datagrams 5000 Toy.asked 0x02020202 5000)
    as (Hgone & Hdropped & _ & _ & Hagain).
  - vm_compute. reflexivity.
  - vm_compute. discriminate.
  - split_and!; [exact Hgone|exact Hdropped|].
    apply (Hagain Toy.dgram8 Toy.peer_ip); vm_compute; reflexivity.
Defined.

Lemma Toy_asked_reachable : reachable Toy.asked.
Proof.
  exists Toy.my_eth, Toy.my_ip. apply rtc_once. apply step_send_datagram.
Defined.

Lemma reachable_table_excludes_pending_witness :
  ¬ (is_Some (arp_table_ Toy.asked !! 0x02020202)
     ∧ is_Some (waiting_arp_response_ip_addr_ Toy.asked !! 0x02020202)).
Proof.
  apply (reachable_table_excludes_pending Toy.asked 0x02020202).
  exact Toy_asked_reachable.
Defined.

Lemma recv_frame_ignores_other_destinations_witness :
  recv_frame 0 Toy.for_other Toy.asked = Some (Toy.asked, None).
Proof.
  apply (recv_frame_ignores_other_destinations 0 Toy.for_other Toy.asked).
  - vm_compute. discriminate.
  - vm_compute. discriminate.
Defined.

Lemma recv_frame_drops_malformed_payload_witness :
  recv_frame 0 Toy.malformed Toy.asked = Some (Toy.asked, None).
Proof.
  apply (recv_frame_drops_malformed_payload 0 Toy.malformed Toy.asked).
  - left. reflexivity.
  - left. split; reflexivity.
Defined.

Lemma reachable_waiting_has_pending_witness :
  is_Some (waiting_arp_response_ip_addr_ Toy.asked !! 0x02020202)
  ∧ arp_table_ Toy.asked !! 0x02020202 = None.
Proof.
  apply (reachable_waiting_has_pending Toy.asked (Toy.peer_ip, Toy.dgram7)).
  - exact Toy_asked_reachable.
  - vm_compute. left.
Defined.

(** The further properties on the same scenario. *)

Example maybe_send_all_after_resolution :
  (λ res, (maybe_send_all 5 res.1).2) <$> recv_frame 2 Toy.reply Toy.asked
  = Some [arp_request_frame Toy.me 0x02020202;
          ipv4_frame Toy.me Toy.peer_eth Toy.dgram7].
Proof. vm_compute. reflexivity. Qed.

Lemma recv_frame_changes_only_on_accepted_arp_witness :
  learned Toy.asked Toy.reply_msg = Toy.asked
  ∨ (addressed_to Toy.asked Toy.reply
     ∧ type (header Toy.reply) = TYPE_ARP
     ∧ (None : option InternetDatagram) = None
     ∧ ∃ arp_msg,
         parse_arp (payload Toy.reply) = Some arp_msg
         ∧ (is_valid_arp_request Toy.asked arp_msg
            ∨ is_valid_arp_reply Toy.asked arp_msg)
         ∧ arp_table_ (learned Toy.asked Toy.reply_msg) !! sender_ip_address arp_msg
           = Some {| eth_addr := sender_ethernet_address arp_msg; ttl := 30000 |}).
Proof.
  apply (recv_frame_changes_only_on_accepted_arp 2 Toy.reply Toy.asked).
  vm_compute. reflexivity.
Defined.

Lemma recv_frame_answers_request_witness :
  ∃ ni' resent_dgrams,
    recv_frame 2 Toy.request Toy.asked = Some (ni', None)
    ∧ Forall (λ f, type (header f) = TYPE_IPv4) resent_dgrams
    ∧ _frames_out ni'
      = _frames_out Toy.asked
        ++ [arp_reply_frame Toy.asked Toy.request_msg]
        ++ resent_dgrams.
Proof.
  apply (recv_frame_answers_request 2 Toy.request Toy.asked Toy.request_msg).
  - right. reflexivity.
  - reflexivity.
  - reflexivity.
  - left. vm_compute. exact I.
  - vm_compute. lia.
Defined.

Lemma arp_handshake_delivers_witness :
  ∃ b1 a2 a_before,
    recv_frame 1 (arp_request_frame Toy.me 0x02020202) Toy.peer = Some (b1, None)
    ∧ recv_frame 2
        (arp_reply_frame Toy.peer
           (construct_arp_message Toy.me OPCODE_REQUEST EthernetAddress_empty
              0x02020202))
        Toy.asked
      = Some (a2, None)
    ∧ _frames_out a2 = a_before ++ [ipv4_frame Toy.me Toy.peer_eth Toy.dgram7]
    ∧ recv_frame 1 (ipv4_frame Toy.me Toy.peer_eth Toy.dgram7) b1
      = Some (b1, Some Toy.dgram7).
Proof.
  destruct (arp_handshake_delivers Toy.dgram7 Toy.peer_ip Toy.me Toy.peer)
    as (b1 & b_resent & a2 & a_before & _ & Hb & _ & _ & Ha & _ & Hout & Hdeliver).
  - reflexivity.
  - vm_compute. reflexivity.
  - vm_compute. reflexivity.
  - intros arp_msg. reflexivity.
  - reflexivity.
  - exists b1, a2, a_before. split_and!; [exact Hb|exact Ha|exact Hout|apply Hdeliver].
Defined.

Lemma send_datagram_hit_reaches_next_hop_witness :
  ∃ frame,
    _frames_out (send_datagram Toy.dgram7 Toy.peer_ip Toy.known)
    = _frames_out Toy.known ++ [frame]
    ∧ recv_frame 1 frame Toy.peer = Some (Toy.peer, Some Toy.dgram7)
    ∧ recv_frame 1 frame Toy.stranger = Some (Toy.stranger, None).
Proof.
  destruct (send_datagram_hit_reaches_next_hop
              1 Toy.dgram7 Toy.peer_ip Toy.known Toy.peer Toy.peer_entry)
    as (frame & Hout & Hpeer & Hothers).
  - vm_compute. reflexivity.
  - reflexivity.
  - reflexivity.
  - exists frame. split_and!; [exact Hout|exact Hpeer|].
    apply Hothers; vm_compute; discriminate.
Defined.

Lemma reachable_timers_in_range_witness :
  (∀ ip entry, arp_table_ Toy.asked !! ip = Some entry → 0 < ttl entry ≤ 30000)
  ∧ (∀ ip t, waiting_arp_response_ip_addr_ Toy.asked !! ip = Some t → 0 < t ≤ 5000).
Proof.
  apply (reachable_timers_in_range Toy.asked). exact Toy_asked_reachable.
Defined.

Lemma reachable_tick_0_witness : tick 0 Toy.asked = Toy.asked.
Proof. apply (reachable_tick_0 Toy.asked). exact Toy_asked_reachable. Defined.

Lemma reachable_frames_sent_by_self_witness :
  ethernet_address_ Toy.asked = Toy.my_eth
  ∧ ip_address_ Toy.asked = Toy.my_ip
  ∧ Forall (λ frame,
              src (header frame) = Toy.my_eth
              ∧ (type (header frame) = TYPE_IPv4 ∨ type (header frame) = TYPE_ARP))
      (_frames_out Toy.asked).
Proof.
  apply (reachable_frames_sent_by_self Toy.my_eth Toy.my_ip Toy.asked).
  apply rtc_once. apply step_send_datagram.
Defined.

Lemma recv_frame_learned_address_lifetime_witness :
  ∃ ni1,
    recv_frame 2 Toy.reply Toy.asked = Some (ni1, None)
    ∧ send_datagram Toy.dgram8 Toy.peer_ip (tick 29999 ni1)
      = push_frame (ipv4_frame Toy.asked Toy.peer_eth Toy.dgram8) (tick 29999 ni1)
    ∧ _frames_out (send_datagram Toy.dgram8 Toy.peer_ip (tick 30000 ni1))
      = _frames_out ni1 ++ [arp_request_frame Toy.asked 0x02020202].
Proof.
  destruct (recv_frame_learned_address_lifetime
              2 Toy.reply Toy.asked Toy.reply_msg Toy.peer_ip)
    as (ni1 & Hrecv & Hlive & Hgone).
  - left. reflexivity.
  - reflexivity.
  - reflexivity.
  - right. vm_compute. exact I.
  - vm_compute. lia.
  - reflexivity.
  - exists ni1. split_and!; [exact Hrecv| |].
    + apply Hlive. vm_compute. reflexivity.
    + apply Hgone. vm_compute. discriminate.
Defined.

Lemma send_datagram_window_not_extended_witness :
  waiting_arp_response_ip_addr_ (run Toy.more_sends Toy.asked) !! 0x02020202
  = Some 1
  ∧ waiting_arp_response_ip_addr_ (tick 1 (run Toy.more_sends Toy.asked))
      !! 0x02020202 = None
  ∧ Forall (λ pair, ipv4_numeric pair.1 ≠ 0x02020202)
      (waiting_arp_internet_datagrams_ (tick 1 (run Toy.more_sends Toy.asked))).
Proof.
  destruct (send_datagram_window_not_extended
              0x02020202 1 Toy.dgram7 Toy.peer_ip Toy.more_sends Toy.me)
    as (Htimer & Hgone & Hdropped & _).
  - reflexivity.
  - repeat constructor.
  - vm_compute. reflexivity.
  - vm_compute. reflexivity.
  - vm_compute. reflexivity.
  - vm_compute. discriminate.
  - split_and!; [exact Htimer|exact Hgone|exact Hdropped].
Defined.

Lemma recv_frame_terminates_witness :
  is_Some (recv_frame 5 Toy.reply Toy.asked)
  ∧ recv_frame 5 Toy.reply Toy.asked = recv_frame 2 Toy.reply Toy.asked.
Proof.
  apply (recv_frame_terminates 5 Toy.reply Toy.asked). vm_compute. lia.
Defined.

End Scenario.
